(** * GSTR-2B to Tally converter: extractor, ledger planner, voucher builder

    A shallow embedding of [src/main.py] ([r2], [process_gstr2b_logic],
    [generate_masters_string], [generate_vouchers_string], [process_gst]).
    The command-line copies under [src/cli] repeat the same three functions
    line for line and differ only in reading and writing files.

    Conventions of the embedding.
    - A monetary field of an invoice is a JSON number.  The program never
      computes with it directly: the planner takes [float(val)], the builder
      takes [Decimal(str(val))].  A field is therefore represented by the
      decimal numeral [str(val)] denotes (sign, digits, exponent), which is
      what [Decimal(str(val))] constructs; [float(val)] is that numeral
      rounded to the nearest binary64 number (for a float this is the float
      itself, because [str] of a float reads back to the same float).
    - [decimal] arithmetic follows the default context of Python's decimal
      module: precision 28, ROUND_HALF_EVEN, with InvalidOperation and
      DivisionByZero trapped.
    - binary64 arithmetic is Rocq's primitive [float].
    - A Python [str] is represented by its UTF-8 encoding: a [string] is the
      sequence of its bytes, and a character is read off with [code_point].
      (A [str] holding a lone surrogate has no such encoding and is not
      represented.)
    - An exception is a value of [exn]; code that may raise returns
      [result]. *)

From Stdlib Require Import ZArith Lia Floats Ascii String.
From stdpp Require Import base option list gmap sets strings pretty.

Local Open Scope Z_scope.

(** ** Exceptions *)

Inductive exn : Set :=
| ValueError
| TypeError
| OverflowError
| InvalidOperation
| DivisionByZero
| ExpatError.

Inductive result (A : Type) : Type :=
| Ok (a : A)
| Raise (e : exn).
Arguments Ok {A} a.
Arguments Raise {A} e.

#[global] Instance result_ret : MRet result := fun _ a => Ok a.
#[global] Instance result_bind : MBind result := fun _ _ f m =>
  match m with
  | Ok a => f a
  | Raise e => Raise e
  end.

#[global] Instance result_fmap : FMap result := fun _ _ f m =>
  match m with
  | Ok a => Ok (f a)
  | Raise e => Raise e
  end.

Definition is_ok {A} (r : result A) : bool :=
  match r with Ok _ => true | Raise _ => false end.

(** ** The fragment of Python's [decimal] the builder uses *)

Module Dec.

(** [_dec_from_triple(sign, digits, exp)]: the number
    [(-1)^sign * coef * 10^exp].  A zero keeps its sign and exponent. *)
Record t : Set := mk { sign : bool; coef : N; exp : Z }.

Definition int (d : t) : Z := Z.of_N (coef d).
Definition triple (s : bool) (c : Z) (e : Z) : t := mk s (Z.to_N c) e.
Definition is_zero (d : t) : bool := int d =? 0.

(** [getcontext().prec] *)
Definition prec : Z := 28.

Inductive rounding : Set := ROUND_HALF_UP | ROUND_HALF_EVEN.

(** [len(str(c))] for [c >= 0]. *)
Fixpoint ndigits_fuel (fuel : nat) (c : Z) : Z :=
  match fuel with
  | O => 1
  | S f => if c <? 10 then 1 else 1 + ndigits_fuel f (c / 10)
  end.
Definition ndigits (c : Z) : Z := ndigits_fuel (Z.to_nat (Z.log2 c)) c.

(** [adjusted()]: the exponent of the leading digit. *)
Definition adjusted (d : t) : Z := exp d + ndigits (int d) - 1.

(** [c / p] rounded to an integer, a tie going up in magnitude
    (ROUND_HALF_UP) or to the even neighbour (ROUND_HALF_EVEN). *)
Definition div_half_up (c p : Z) : Z :=
  if 2 * (c mod p) >=? p then c / p + 1 else c / p.
Definition div_half_even (c p : Z) : Z :=
  if (2 * (c mod p) >? p) || ((2 * (c mod p) =? p) && Z.odd (c / p))
  then c / p + 1 else c / p.
Definition round_div (m : rounding) : Z -> Z -> Z :=
  match m with
  | ROUND_HALF_UP => div_half_up
  | ROUND_HALF_EVEN => div_half_even
  end.

(** [_rescale(exp, rounding)]: the same number at exponent [e], padded
    with zeros or rounded. *)
Definition rescale (d : t) (e : Z) (m : rounding) : t :=
  if is_zero d then triple (sign d) 0 e
  else if e <=? exp d then triple (sign d) (int d * 10 ^ (exp d - e)) e
  else triple (sign d) (round_div m (int d) (10 ^ (e - exp d))) e.

(** [_fix(context)]: round to the context precision, ROUND_HALF_EVEN.
    The exponent limits (Emin, Emax = -/+999999) are out of reach of the
    amounts handled here and are left out. *)
Definition fix_ (d : t) : t :=
  let n := ndigits (int d) in
  if n <=? prec then d
  else
    let k := n - prec in
    let c := div_half_even (int d) (10 ^ k) in
    if ndigits c >? prec then triple (sign d) (c / 10) (exp d + k + 1)
    else triple (sign d) c (exp d + k).

(** [quantize(Decimal with exponent e, rounding=m)] for [e] within the
    context's exponent range. *)
Definition quantize (d : t) (e : Z) (m : rounding) : result t :=
  if is_zero d then Ok (fix_ (triple (sign d) 0 e))
  else if adjusted d - e + 1 >? prec then Raise InvalidOperation
  else
    let ans := rescale d e m in
    if ndigits (int ans) >? prec then Raise InvalidOperation
    else Ok (fix_ ans).

(** The signed coefficient of [d] written at exponent [e <= exp d]. *)
Definition units (e : Z) (d : t) : Z :=
  (if sign d then - int d else int d) * 10 ^ (exp d - e).

(** [__add__] *)
Definition add (a b : t) : t :=
  let e := Z.min (exp a) (exp b) in
  if is_zero a && is_zero b then fix_ (triple (sign a && sign b) 0 e)
  else if is_zero a then
    fix_ (rescale b (Z.max e (exp b - prec - 1)) ROUND_HALF_EVEN)
  else if is_zero b then
    fix_ (rescale a (Z.max e (exp a - prec - 1)) ROUND_HALF_EVEN)
  else
    let s := units e a + units e b in
    if s =? 0 then fix_ (triple false 0 e)
    else fix_ (triple (s <? 0) (Z.abs s) e).

Definition copy_negate (d : t) : t := mk (negb (sign d)) (coef d) (exp d).
Definition copy_abs (d : t) : t := mk false (coef d) (exp d).

(** [__sub__] *)
Definition sub (a b : t) : t := add a (copy_negate b).

(** [__neg__]: a zero comes out positive. *)
Definition neg (d : t) : t :=
  if is_zero d then fix_ (copy_abs d) else fix_ (copy_negate d).

(** [__mul__] *)
Definition mul (a b : t) : t :=
  let s := xorb (sign a) (sign b) in
  let e := exp a + exp b in
  if is_zero a || is_zero b then fix_ (triple s 0 e)
  else fix_ (triple s (int a * int b) e).

(** The loop of [__truediv__] that brings an exact quotient as close to
    the ideal exponent as its trailing zeros allow. *)
Fixpoint strip_zeros (fuel : nat) (c e : Z) : Z * Z :=
  match fuel with
  | O => (c, e)
  | S f => if c mod 10 =? 0 then strip_zeros f (c / 10) (e + 1) else (c, e)
  end.

(** [__truediv__] *)
Definition div (a b : t) : result t :=
  let s := xorb (sign a) (sign b) in
  if is_zero b then Raise DivisionByZero
  else if is_zero a then Ok (fix_ (triple s 0 (exp a - exp b)))
  else
    let shift := ndigits (int b) - ndigits (int a) + prec + 1 in
    let e := exp a - exp b - shift in
    let num := if 0 <=? shift then int a * 10 ^ shift else int a in
    let den := if 0 <=? shift then int b else int b * 10 ^ (- shift) in
    let q := num / den in
    let '(c, e') :=
      if num mod den =? 0 then strip_zeros (Z.to_nat (exp a - exp b - e)) q e
      else (if q mod 5 =? 0 then q + 1 else q, e) in
    Ok (fix_ (triple s c e')).

(** [__int__]: truncation towards zero. *)
Definition to_int (d : t) : Z :=
  let n := if 0 <=? exp d then int d * 10 ^ exp d
           else int d / 10 ^ (- exp d) in
  if sign d then - n else n.

(** [_cmp]: comparison of the numbers denoted. *)
Definition cmp (a b : t) : comparison :=
  let e := Z.min (exp a) (exp b) in
  units e a ?= units e b.
Definition eqb (a b : t) : bool :=
  match cmp a b with Eq => true | _ => false end.
Definition gtb (a b : t) : bool :=
  match cmp a b with Gt => true | _ => false end.

(** [Decimal(n)] for an int [n]. *)
Definition of_Z (n : Z) : t := triple (n <? 0) (Z.abs n) 0.

(** [__str__], the text an f-string inserts. *)
Definition zeros (n : Z) : string := String.concat "" (replicate (Z.to_nat n) "0").
Definition to_string (d : t) : string :=
  let digits := pretty (coef d) in
  let len := Z.of_nat (String.length digits) in
  let leftdigits := exp d + len in
  let dotplace :=
    if (exp d <=? 0) && (-6 <? leftdigits) then leftdigits else 1 in
  let body :=
    if dotplace <=? 0 then "0." +:+ zeros (- dotplace) +:+ digits
    else if len <=? dotplace then digits +:+ zeros (dotplace - len)
    else String.substring 0 (Z.to_nat dotplace) digits +:+ "." +:+
         String.substring (Z.to_nat dotplace) (Z.to_nat (len - dotplace)) digits in
  let expo :=
    if leftdigits =? dotplace then ""
    else if 0 <=? leftdigits - dotplace
         then "E+" +:+ pretty (leftdigits - dotplace)
         else "E" +:+ pretty (leftdigits - dotplace) in
  (if sign d then "-" else "") +:+ body +:+ expo.

(** The signed value in hundredths; exact whenever [exp d >= -2]. *)
Definition cents (d : t) : Z := units (-2) d.

(** The signed coefficient. *)
Definition signed (d : t) : Z := if sign d then - int d else int d.

End Dec.

(** ** binary64 numbers, as the planner uses them *)

(** [float(val)]: the numeral rounded to the nearest binary64 number, ties to
    even.  A quotient that is not an integer is first truncated to more than
    64 bits with a sticky bit, which rounds the same way.  Only an int can
    lie beyond the binary64 range, and [float] of such an int raises
    OverflowError. *)
Definition py_float (d : Dec.t) : result float :=
  let c := Dec.int d in
  let sgn (n : Z) := if Dec.sign d then - n else n in
  if Dec.is_zero d then Ok (if Dec.sign d then (-0)%float else 0%float)
  else
    let sf :=
      if 0 <=? Dec.exp d
      then binary_normalize 53 1024 (sgn (c * 10 ^ Dec.exp d)) 0 (Dec.sign d)
      else
        let p := 10 ^ (- Dec.exp d) in
        let sh := Z.max 0 (Z.log2 p + 66 - Z.log2 c) in
        let q := (c * 2 ^ sh) / p in
        let sticky := if (c * 2 ^ sh) mod p =? 0 then 0 else 1 in
        binary_normalize 53 1024 (sgn (2 * q + sticky)) (- sh - 1) (Dec.sign d)
    in
    match sf with
    | S754_infinity _ => Raise OverflowError
    | _ => Ok (SF2Prim sf)
    end.

(** [round(x)] of a float with no digits argument: the nearest int, ties to
    even; ValueError on a NaN, OverflowError on an infinity. *)
Definition py_round (x : float) : result Z :=
  match Prim2SF x with
  | S754_zero _ => Ok 0
  | S754_finite s m e =>
      let n := if 0 <=? e then Z.pos m * 2 ^ e
               else Dec.div_half_even (Z.pos m) (2 ^ (- e)) in
      Ok (if s then - n else n)
  | S754_infinity _ => Raise OverflowError
  | S754_nan => Raise ValueError
  end.

(** [x > 0] on floats. *)
Definition float_pos (x : float) : bool := PrimFloat.ltb 0%float x.

(** ** Data model *)

(** The first character of a text: one code point of well-formed UTF-8 and
    the rest of the text. *)
Definition byte (a : ascii) : Z := Z.of_nat (nat_of_ascii a).
Definition continuation (s : string) : option (Z * string) :=
  match s with
  | String a r =>
      if (128 <=? byte a) && (byte a <? 192) then Some (byte a - 128, r)
      else None
  | EmptyString => None
  end.
Definition code_point (s : string) : option (Z * string) :=
  match s with
  | EmptyString => None
  | String a r =>
      let b := byte a in
      if b <? 128 then Some (b, r)
      else if b <? 194 then None
      else if b <? 224 then
        '(x, r) ← continuation r; Some ((b - 192) * 64 + x, r)
      else if b <? 240 then
        '(x, r) ← continuation r; '(y, r) ← continuation r;
        let c := ((b - 224) * 64 + x) * 64 + y in
        if (2048 <=? c) && negb ((55296 <=? c) && (c <? 57344))
        then Some (c, r) else None
      else if b <? 245 then
        '(x, r) ← continuation r; '(y, r) ← continuation r;
        '(z, r) ← continuation r;
        let c := (((b - 240) * 64 + x) * 64 + y) * 64 + z in
        if (65536 <=? c) && (c <? 1114112) then Some (c, r) else None
      else None
  end.

(** A JSON text value that may be missing ([None]). *)
Definition py_str (v : option string) : string := default "None" v.

(** The raw filing, as [json.loads] returns it; a missing key is [None]. *)
Record RawInvoice : Set := {
  dt : option string;
  inum : option string;
  txval : option Dec.t;
  igst : option Dec.t;
  cgst : option Dec.t;
  sgst : option Dec.t;
  val : option Dec.t
}.
Record Supplier : Set := {
  trdnm : option string;
  ctin : option string;
  inv : option (list RawInvoice)
}.
Record DocData : Set := { b2b : option (list Supplier) }.
Record DataRoot : Set := { rtnprd : option string; docdata : option DocData }.
Record RawFiling : Set := { data : option DataRoot }.

(** One element of [extracted_invoices]. *)
Record Invoice : Set := {
  supplier_name : option string;
  supplier_gstin : option string;
  date : option string;
  invoice_number : option string;
  return_period : string;
  taxable_value : Dec.t;
  igst_amount : Dec.t;
  cgst_amount : Dec.t;
  sgst_amount : Dec.t;
  total_invoice_value : Dec.t
}.

(** ** Extractor: [process_gstr2b_logic] *)

(** The dict appended for one raw invoice; [inv.get(key, 0)] is the int 0
    when the key is missing. *)
Definition extract_invoice (return_period : string) (s : Supplier)
    (i : RawInvoice) : Invoice :=
  {| supplier_name := trdnm s;
     supplier_gstin := ctin s;
     date := dt i;
     invoice_number := inum i;
     return_period := return_period;
     taxable_value := default (Dec.of_Z 0) (txval i);
     igst_amount := default (Dec.of_Z 0) (igst i);
     cgst_amount := default (Dec.of_Z 0) (cgst i);
     sgst_amount := default (Dec.of_Z 0) (sgst i);
     total_invoice_value := default (Dec.of_Z 0) (val i) |}.

Definition process_gstr2b_logic (raw_data : RawFiling) : list Invoice :=
  let data_root := default {| rtnprd := None; docdata := None |} (data raw_data) in
  let return_period := default "N/A" (rtnprd data_root) in
  let b2b_sections :=
    default [] (b2b (default {| b2b := None |} (docdata data_root))) in
  fold_left
    (fun extracted_invoices supplier =>
       fold_left
         (fun extracted_invoices i =>
            extracted_invoices ++ [extract_invoice return_period supplier i])
         (default [] (inv supplier)) extracted_invoices)
    b2b_sections [].

(** ** Date parsing: [datetime.strptime(s, "%d-%m-%Y")] *)

Module Strptime.

(** The digits zero of the decimal digits of Unicode 14.0, the database of
    CPython 3.11: every character [\d] matches and [int] converts is one of
    the ten characters from one of these on, with the values 0 to 9. *)
Definition digit_zeros : list Z :=
  [ 48; 1632; 1776; 1984; 2406; 2534; 2662; 2790; 2918; 3046; 3174; 3302;
    3430; 3558; 3664; 3792; 3872; 4160; 4240; 6112; 6160; 6470; 6608; 6784;
    6800; 6992; 7088; 7232; 7248; 42528; 43216; 43264; 43472; 43504; 43600;
    44016; 65296; 66720; 68912; 69734; 69872; 69942; 70096; 70384; 70736;
    70864; 71248; 71360; 71472; 71904; 72016; 72784; 73040; 73120; 92768;
    92864; 93008; 120782; 120792; 120802; 120812; 120822; 123200; 123632;
    125264; 130032 ].
Definition decimal (c : Z) : option Z :=
  (fun z => c - z)
    <$> List.find (fun z => (z <=? c) && (c <? z + 10)) digit_zeros.

(** [\d]: one decimal digit of any script, with its value. *)
Definition digit (s : string) : option (Z * string) :=
  '(c, r) ← code_point s; v ← decimal c; Some (v, r).
(** [[lo-hi]]: one of the ASCII digits from [lo] to [hi]. *)
Definition digit_in (lo hi : Z) (a : ascii) : option Z :=
  if (48 + lo <=? byte a) && (byte a <=? 48 + hi) then Some (byte a - 48)
  else None.

(** First alternative that lets the rest of the pattern match, as the
    regular expression engine backtracks. *)
Definition orelse {A} (x y : option A) : option A :=
  match x with Some _ => x | None => y end.

Section Directives.
Context {A : Type} (k : Z -> string -> option A).

(** [%d]: 3[0-1] | [1-2]\d | 0[1-9] | [1-9] | space [1-9] *)
Definition day (s : string) : option A :=
  orelse
    (match s with
     | String a (String b r) =>
         x ← digit_in 3 3 a; y ← digit_in 0 1 b; k (10 * x + y) r
     | _ => None end)
 (orelse
    (match s with
     | String a r =>
         x ← digit_in 1 2 a; '(y, r) ← digit r; k (10 * x + y) r
     | _ => None end)
 (orelse
    (match s with
     | String a (String b r) =>
         x ← digit_in 0 0 a; y ← digit_in 1 9 b; k (10 * x + y) r
     | _ => None end)
 (orelse
    (match s with
     | String a r => x ← digit_in 1 9 a; k x r
     | _ => None end)
    (match s with
     | String " " (String a r) => x ← digit_in 1 9 a; k x r
     | _ => None end)))).

(** [%m]: 1[0-2] | 0[1-9] | [1-9] *)
Definition month (s : string) : option A :=
  orelse
    (match s with
     | String a (String b r) =>
         x ← digit_in 1 1 a; y ← digit_in 0 2 b; k (10 * x + y) r
     | _ => None end)
 (orelse
    (match s with
     | String a (String b r) =>
         x ← digit_in 0 0 a; y ← digit_in 1 9 b; k (10 * x + y) r
     | _ => None end)
    (match s with
     | String a r => x ← digit_in 1 9 a; k x r
     | _ => None end)).

(** [%Y]: \d\d\d\d *)
Definition year (s : string) : option A :=
  '(w, r) ← digit s; '(x, r) ← digit r; '(y, r) ← digit r;
  '(z, r) ← digit r;
  k (1000 * w + 100 * x + 10 * y + z) r.

Definition dash (s : string) : option A :=
  match s with
  | String "-" r => k 0 r
  | _ => None
  end.
End Directives.

Definition is_leap (y : Z) : bool :=
  (y mod 4 =? 0) && (negb (y mod 100 =? 0) || (y mod 400 =? 0)).
Definition days_in_month (y m : Z) : Z :=
  if m =? 2 then (if is_leap y then 29 else 28)
  else if (m =? 4) || (m =? 6) || (m =? 9) || (m =? 11) then 30
  else 31.

(** The whole text must match, and the fields must form a date of the
    calendar (years 1 to 9999). *)
Definition parse (s : string) : option (Z * Z * Z) :=
  day (fun d => dash (fun _ => month (fun m => dash (fun _ =>
    year (fun y r =>
      match r with
      | EmptyString =>
          if (1 <=? y) && (d <=? days_in_month y m) then Some (y, m, d)
          else None
      | _ => None
      end))))) s.

End Strptime.

(** [datetime.strptime(inv['date'], "%d-%m-%Y")]: TypeError when the date
    is missing, ValueError when the text does not match or is no date. *)
Definition strptime_dmy (v : option string) : result (Z * Z * Z) :=
  match v with
  | None => Raise TypeError
  | Some s =>
      match Strptime.parse s with
      | Some ymd => Ok ymd
      | None => Raise ValueError
      end
  end.

(** ** Ledger planner: [generate_masters_string] *)

(** One [TALLYMESSAGE/LEDGER] element appended to [req_data]; [TAXTYPE] and
    [GSTDUTYHEAD] exist only on a tax ledger. *)
Record Ledger : Set := {
  NAME : option string;
  PARENT : string;
  ISBILLWISEON : string;
  TAXTYPE : option string;
  GSTDUTYHEAD : option string
}.

(** The two objects the closure [create_ledger_elem] mutates. *)
Record Masters : Type := {
  req_data : list Ledger;
  created : gset (option string)
}.

Definition create_ledger_elem (name : option string) (group : string)
    (is_gst : bool) (gst_head : option string) (st : Masters) : Masters :=
  if decide (name ∈ created st) then st
  else
    {| req_data := req_data st ++
         [ {| NAME := name;
              PARENT := group;
              ISBILLWISEON :=
                if String.eqb group "Sundry Creditors" then "Yes" else "No";
              TAXTYPE := if is_gst then Some "GST" else None;
              GSTDUTYHEAD := if is_gst then gst_head else None |} ];
       created := created st ∪ {[ name ]} |}.

(** The names of the f-strings. *)
Definition pct (label : string) (rate : Z) : string :=
  label +:+ " " +:+ pretty rate +:+ "%".

(** The interstate step of the loop body. *)
Definition plan_interstate (igst taxable : float) (st : Masters)
    : result Masters :=
  if float_pos igst && float_pos taxable then
    rate ← py_round (PrimFloat.mul (PrimFloat.div igst taxable) 100%float);
    let st := create_ledger_elem (Some (pct "Interstate Purchase" rate))
                "Purchase Accounts" false None st in
    Ok (create_ledger_elem (Some (pct "Input IGST" rate))
          "Duties & Taxes" true (Some "Integrated Tax") st)
  else Ok st.

(** The local step of the loop body. *)
Definition plan_local (cgst sgst taxable : float) (st : Masters)
    : result Masters :=
  if (float_pos cgst || float_pos sgst) && float_pos taxable then
    rate ← py_round
      (PrimFloat.mul (PrimFloat.div (PrimFloat.add cgst sgst) taxable)
         100%float);
    let st := create_ledger_elem (Some (pct "Local Purchase" rate))
                "Purchase Accounts" false None st in
    let st := create_ledger_elem (Some (pct "Input CGST" (rate / 2)))
                "Duties & Taxes" true (Some "Central Tax") st in
    Ok (create_ledger_elem (Some (pct "Input SGST" (rate / 2)))
          "Duties & Taxes" true (Some "State Tax") st)
  else Ok st.

(** The body of [for inv in invoices]. *)
Definition plan_invoice (i : Invoice) (st : Masters) : result Masters :=
  taxable ← py_float (taxable_value i);
  igst ← py_float (igst_amount i);
  cgst ← py_float (cgst_amount i);
  sgst ← py_float (sgst_amount i);
  let st := create_ledger_elem (supplier_name i) "Sundry Creditors"
              false None st in
  st ← plan_interstate igst taxable st;
  plan_local cgst sgst taxable st.

Fixpoint plan_invoices (invoices : list Invoice) (st : Masters)
    : result Masters :=
  match invoices with
  | [] => Ok st
  | i :: rest => st ← plan_invoice i st; plan_invoices rest st
  end.

(** The state after the loop. *)
Definition plan (invoices : list Invoice) : result Masters :=
  plan_invoices invoices
    (create_ledger_elem (Some "Round Off") "Indirect Expenses" false None
       {| req_data := []; created := ∅ |}).

(** The masters document: the envelope around [req_data].  The text of a
    tree that [prettify] accepts is determined by the tree, so the document
    is kept as a tree. *)
Record MastersDocument : Set := {
  masters_company : string;
  masters_ledgers : list Ledger
}.

(** A text the XML parser reads back: no control character other than tab,
    line feed and carriage return, and neither U+FFFE nor U+FFFF. *)
Fixpoint xml_text_ok (s : string) : bool :=
  match s with
  | EmptyString => true
  | String a r =>
      let b := byte a in
      negb ((b <? 32) && negb ((b =? 9) || (b =? 10) || (b =? 13)))
      && negb (match r with
               | String c (String d _) =>
                   (b =? 239) && (byte c =? 191)
                   && ((byte d =? 190) || (byte d =? 191))
               | _ => false
               end)
      && xml_text_ok r
  end.

(** The texts and attribute values of a [LEDGER] element. *)
Definition ledger_texts (l : Ledger) : list string :=
  option_list (NAME l) ++ [PARENT l; ISBILLWISEON l]
  ++ option_list (TAXTYPE l) ++ option_list (GSTDUTYHEAD l).

(** [ET.tostring] raises TypeError on a ledger whose name is [None], since
    the name is also an attribute; [minidom.parseString] then raises
    ExpatError on a character XML forbids. *)
Definition prettify (doc : MastersDocument) : result MastersDocument :=
  if forallb (fun l => bool_decide (is_Some (NAME l))) (masters_ledgers doc)
  then
    if xml_text_ok (masters_company doc)
       && forallb (fun l => forallb xml_text_ok (ledger_texts l))
            (masters_ledgers doc)
    then Ok doc else Raise ExpatError
  else Raise TypeError.

Definition generate_masters_string (invoices : list Invoice)
    (company_name : string) : result MastersDocument :=
  st ← plan invoices;
  prettify {| masters_company := company_name;
              masters_ledgers := req_data st |}.

(** ** Voucher builder: [generate_vouchers_string] *)

(** The text of an [AMOUNT] element is either a formatted decimal or a
    minus sign followed by a formatted decimal. *)
Inductive Amount : Set :=
| Plain (d : Dec.t)
| Minus (d : Dec.t).

Definition amount_text (a : Amount) : string :=
  match a with
  | Plain d => Dec.to_string d
  | Minus d => "-" +:+ Dec.to_string d
  end.

(** The signed amount in hundredths: [Minus d] stands for a debit of [d]. *)
Definition amount_cents (a : Amount) : Z :=
  match a with
  | Plain d => Dec.cents d
  | Minus d => - Dec.cents d
  end.

Record BillAllocation : Set := {
  bill_name : string;
  bill_type : string;
  bill_amount : Amount
}.

(** One [ALLLEDGERENTRIES.LIST] element. *)
Record VoucherLine : Set := {
  LEDGERNAME : string;
  ISDEEMEDPOSITIVE : string;
  AMOUNT : Amount;
  BILLALLOCATIONS : option BillAllocation
}.

(** One [TALLYMESSAGE/VOUCHER] element; [vch_date] is the parsed date, which
    the program prints as year, month, day in [DATE] and [REFERENCEDATE]. *)
Record Voucher : Set := {
  VOUCHERTYPENAME : string;
  vch_date : Z * Z * Z;
  REFERENCE : string;
  VOUCHERNUMBER : string;
  PARTYLEDGERNAME : string;
  lines : list VoucherLine
}.

Definition r2 (val : Dec.t) : result Dec.t :=
  Dec.quantize val (-2) Dec.ROUND_HALF_UP.

(** [int((tax_total / taxable * 100).quantize(0)) if taxable != 0 else 0] *)
Definition voucher_rate (tax_total taxable : Dec.t) : result Z :=
  if negb (Dec.eqb taxable (Dec.of_Z 0)) then
    q ← Dec.div tax_total taxable;
    q ← Dec.quantize (Dec.mul q (Dec.of_Z 100)) 0 Dec.ROUND_HALF_EVEN;
    Ok (Dec.to_int q)
  else Ok 0.

Definition debit_line (name : string) (d : Dec.t) : VoucherLine :=
  {| LEDGERNAME := name; ISDEEMEDPOSITIVE := "Yes"; AMOUNT := Minus d;
     BILLALLOCATIONS := None |}.

(** The tax lines: the [if igst > 0 ... else ...] of the loop body. *)
Definition tax_lines (rate : Z) (igst cgst sgst : Dec.t) : list VoucherLine :=
  if Dec.gtb igst (Dec.of_Z 0) then [ debit_line (pct "Input IGST" rate) igst ]
  else [ debit_line (pct "Input CGST" (rate / 2)) cgst;
         debit_line (pct "Input SGST" (rate / 2)) sgst ].

(** The balancing line: [if debit_calc != invoice_total: ...]. *)
Definition round_off_lines (debit_calc invoice_total : Dec.t)
    : list VoucherLine :=
  if negb (Dec.eqb debit_calc invoice_total) then
    let diff := Dec.sub invoice_total debit_calc in
    let deemed := if Dec.gtb diff (Dec.of_Z 0) then "No" else "Yes" in
    [ {| LEDGERNAME := "Round Off"; ISDEEMEDPOSITIVE := deemed;
         AMOUNT := Plain (Dec.neg diff); BILLALLOCATIONS := None |} ]
  else [].

(** The [TALLYMESSAGE] the loop body appends to [xml_str], given the values
    of its local variables. *)
Definition voucher_of (i : Invoice) (vch_date : Z * Z * Z)
    (taxable igst cgst sgst invoice_total : Dec.t) (rate : Z) : Voucher :=
  let tax_total := Dec.add (Dec.add igst cgst) sgst in
  let debit_calc := Dec.add taxable tax_total in
  let purchase_ledger :=
    if Dec.gtb igst (Dec.of_Z 0) then pct "Interstate Purchase" rate
    else pct "Local Purchase" rate in
  {| VOUCHERTYPENAME := "Purchase";
     vch_date := vch_date;
     REFERENCE := py_str (invoice_number i);
     VOUCHERNUMBER := py_str (invoice_number i);
     PARTYLEDGERNAME := py_str (supplier_name i);
     lines :=
       [ {| LEDGERNAME := py_str (supplier_name i);
            ISDEEMEDPOSITIVE := "No";
            AMOUNT := Plain invoice_total;
            BILLALLOCATIONS :=
              Some {| bill_name := py_str (invoice_number i);
                      bill_type := "New Ref";
                      bill_amount := Plain invoice_total |} |};
         debit_line purchase_ledger taxable ]
       ++ tax_lines rate igst cgst sgst
       ++ round_off_lines debit_calc invoice_total |}.

(** The body of [for inv in invoices]. *)
Definition build_voucher (i : Invoice) : result Voucher :=
  vch_date ← strptime_dmy (date i);
  taxable ← r2 (taxable_value i);
  igst ← r2 (igst_amount i);
  cgst ← r2 (cgst_amount i);
  sgst ← r2 (sgst_amount i);
  invoice_total ← r2 (total_invoice_value i);
  let tax_total := Dec.add (Dec.add igst cgst) sgst in
  rate ← voucher_rate tax_total taxable;
  Ok (voucher_of i vch_date taxable igst cgst sgst invoice_total rate).

(** The loop: [xml_str] grows by one voucher per invoice; an exception
    leaves the function without any text. *)
Fixpoint build_vouchers (invoices : list Invoice) (acc : list Voucher)
    : result (list Voucher) :=
  match invoices with
  | [] => Ok acc
  | i :: rest => v ← build_voucher i; build_vouchers rest (acc ++ [v])
  end.

Record VouchersDocument : Set := {
  vouchers_company : string;
  vouchers : list Voucher
}.

Definition generate_vouchers_string (invoices : list Invoice)
    (company_name : string) : result VouchersDocument :=
  vs ← build_vouchers invoices [];
  Ok {| vouchers_company := company_name; vouchers := vs |}.

(** ** The endpoint: [process_gst] *)

Record Response : Set := {
  company : string;
  cleaned_data : list Invoice;
  masters_xml : MastersDocument;
  vouchers_xml : VouchersDocument
}.

(** [Raise e] is the [HTTPException(status_code=400, detail=str(e))] the
    handler turns every exception into. *)
Definition process_gst (raw_json : RawFiling) (company_name : string)
    : result Response :=
  let invoices := process_gstr2b_logic raw_json in
  masters ← generate_masters_string invoices company_name;
  vouchers ← generate_vouchers_string invoices company_name;
  Ok {| company := company_name;
        cleaned_data := invoices;
        masters_xml := masters;
        vouchers_xml := vouchers |}.


(** ** Observations on the outputs *)

(** The sum of the signed amounts of a voucher's entries, in hundredths. *)
Definition voucher_balance (v : Voucher) : Z :=
  foldr (fun l acc => amount_cents (AMOUNT l) + acc) 0 (lines v).

(** The Round Off entry of a voucher, looked for after the party entry (a
    supplier may itself be called Round Off). *)
Definition round_off_line (v : Voucher) : option VoucherLine :=
  List.find (fun l => String.eqb (LEDGERNAME l) "Round Off") (tail (lines v)).

(** An amount small enough for sums of a few of them to stay within the 28
    digits of the decimal context: below 10^25 currency units. *)
Definition small (d : Dec.t) : Prop := Dec.int d < 10 ^ 27.

(** The coefficient [r2] aims at: the magnitude of [d] in hundredths, rounded
    to the nearest integer, a tie going up. *)
Definition nearest_cent (d : Dec.t) : Z :=
  if -2 <=? Dec.exp d then Dec.int d * 10 ^ (Dec.exp d + 2)
  else Dec.div_half_up (Dec.int d) (10 ^ (-2 - Dec.exp d)).

(** The arguments of one call of [create_ledger_elem]. *)
Record Call : Set := {
  call_name : option string;
  call_group : string;
  call_is_gst : bool;
  call_gst_head : option string
}.

Definition run_call (st : Masters) (c : Call) : Masters :=
  create_ledger_elem (call_name c) (call_group c) (call_is_gst c)
    (call_gst_head c) st.

(** The calls the interstate and the local step make. *)
Definition interstate_calls (igst taxable : float) : result (list Call) :=
  if float_pos igst && float_pos taxable then
    rate ← py_round (PrimFloat.mul (PrimFloat.div igst taxable) 100%float);
    Ok [ {| call_name := Some (pct "Interstate Purchase" rate);
            call_group := "Purchase Accounts";
            call_is_gst := false; call_gst_head := None |};
         {| call_name := Some (pct "Input IGST" rate);
            call_group := "Duties & Taxes";
            call_is_gst := true; call_gst_head := Some "Integrated Tax" |} ]
  else Ok [].

Definition local_calls (cgst sgst taxable : float) : result (list Call) :=
  if (float_pos cgst || float_pos sgst) && float_pos taxable then
    rate ← py_round
      (PrimFloat.mul (PrimFloat.div (PrimFloat.add cgst sgst) taxable)
         100%float);
    Ok [ {| call_name := Some (pct "Local Purchase" rate);
            call_group := "Purchase Accounts";
            call_is_gst := false; call_gst_head := None |};
         {| call_name := Some (pct "Input CGST" (rate / 2));
            call_group := "Duties & Taxes";
            call_is_gst := true; call_gst_head := Some "Central Tax" |};
         {| call_name := Some (pct "Input SGST" (rate / 2));
            call_group := "Duties & Taxes";
            call_is_gst := true; call_gst_head := Some "State Tax" |} ]
  else Ok [].

(** The calls one pass of the loop body makes, in order. *)
Definition ledger_calls (i : Invoice) : result (list Call) :=
  taxable ← py_float (taxable_value i);
  igst ← py_float (igst_amount i);
  cgst ← py_float (cgst_amount i);
  sgst ← py_float (sgst_amount i);
  a ← interstate_calls igst taxable;
  b ← local_calls cgst sgst taxable;
  Ok ({| call_name := supplier_name i; call_group := "Sundry Creditors";
         call_is_gst := false; call_gst_head := None |} :: a ++ b).

(** Every call of one run of the loop, in order. *)
Fixpoint all_calls (invoices : list Invoice) : result (list Call) :=
  match invoices with
  | [] => Ok []
  | i :: rest => a ← ledger_calls i; b ← all_calls rest; Ok (a ++ b)
  end.

(** What the planner state must satisfy: [created] holds exactly the names
    of the ledgers in [req_data], each of them once. *)
Definition masters_inv (st : Masters) : Prop :=
  created st = list_to_set (NAME <$> req_data st)
  /\ NoDup (NAME <$> req_data st).

(** A call for a ledger under the Integrated Tax head, only made by the
    interstate step; a call under the Central Tax head, only made by the
    local step. *)
Definition registers_interstate (cs : list Call) : Prop :=
  exists c, c ∈ cs /\ call_gst_head c = Some "Integrated Tax".
Definition registers_local (cs : list Call) : Prop :=
  exists c, c ∈ cs /\ call_gst_head c = Some "Central Tax".

(** The return period and the supplier groups the extractor reads. *)
Definition filing_return_period (raw_data : RawFiling) : string :=
  default "N/A"
    (rtnprd (default {| rtnprd := None; docdata := None |} (data raw_data))).

Definition filing_suppliers (raw_data : RawFiling) : list Supplier :=
  default []
    (b2b (default {| b2b := None |}
            (docdata (default {| rtnprd := None; docdata := None |}
                        (data raw_data))))).

(** ** Sample invoices *)

Definition sample_invoice (d : string) (taxable igst cgst sgst total : Dec.t)
    : Invoice :=
  {| supplier_name := Some "Acme Traders";
     supplier_gstin := Some "27AAAAA0000A1Z5";
     date := Some d;
     invoice_number := Some "INV-001";
     return_period := "012024";
     taxable_value := taxable;
     igst_amount := igst;
     cgst_amount := cgst;
     sgst_amount := sgst;
     total_invoice_value := total |}.

(** Interstate, 18 percent, the stated total one hundredth above the sum of
    its parts: 1000 + 180 against 1180.01. *)
Definition interstate_invoice : Invoice :=
  sample_invoice "15-01-2024" (Dec.of_Z 1000) (Dec.of_Z 180) (Dec.of_Z 0)
    (Dec.of_Z 0) (Dec.mk false 118001 (-2)).

(** All three taxes on one invoice: 100 + 18 + 9 + 9 = 136. *)
Definition mixed_invoice : Invoice :=
  sample_invoice "15-01-2024" (Dec.of_Z 100) (Dec.of_Z 18) (Dec.of_Z 9)
    (Dec.of_Z 9) (Dec.of_Z 136).

(** Interstate at 1.5 percent: 134 + 2.01 = 136.01. *)
Definition diamond_invoice : Invoice :=
  sample_invoice "15-01-2024" (Dec.of_Z 134) (Dec.mk false 201 (-2))
    (Dec.of_Z 0) (Dec.of_Z 0) (Dec.mk false 13601 (-2)).

(** No tax at all: 1000 = 1000. *)
Definition exempt_invoice : Invoice :=
  sample_invoice "15-01-2024" (Dec.of_Z 1000) (Dec.of_Z 0) (Dec.of_Z 0)
    (Dec.of_Z 0) (Dec.of_Z 1000).

(** A zero taxable value under a tax of 18. *)
Definition zero_taxable_invoice : Invoice :=
  sample_invoice "15-01-2024" (Dec.of_Z 0) (Dec.of_Z 18) (Dec.of_Z 0)
    (Dec.of_Z 0) (Dec.of_Z 18).

(** Local tax on amounts of the order of 10^26: 2.01 + 9e25 + 9e25 against a
    stated total of 1e25. *)
Definition huge_invoice : Invoice :=
  sample_invoice "15-01-2024" (Dec.mk false 201 (-2)) (Dec.of_Z 0)
    (Dec.mk false 9 25) (Dec.mk false 9 25) (Dec.mk false 1 25).

(** The date pattern as the specification words it, DD-MM-YYYY read
    literally: two digits, a dash, two digits, a dash, four digits, a digit
    being one of 0 to 9. *)
Definition ascii_digit (a : ascii) : bool := (48 <=? byte a) && (byte a <=? 57).
Definition spec_DD_MM_YYYY (s : string) : bool :=
  match list_ascii_of_string s with
  | [d1; d2; sep1; m1; m2; sep2; y1; y2; y3; y4] =>
      forallb ascii_digit [d1; d2; m1; m2; y1; y2; y3; y4]
      && Ascii.eqb sep1 "-" && Ascii.eqb sep2 "-"
  | _ => false
  end.

(** The interstate invoice dated without leading zeros, and dated with the
    year in Arabic-Indic digits. *)
Definition short_date_invoice : Invoice :=
  sample_invoice "1-2-2024" (Dec.of_Z 1000) (Dec.of_Z 180) (Dec.of_Z 0)
    (Dec.of_Z 0) (Dec.of_Z 1180).
Definition arabic_year_invoice : Invoice :=
  sample_invoice "15-01-٢٠٢٤" (Dec.of_Z 1000) (Dec.of_Z 180) (Dec.of_Z 0)
    (Dec.of_Z 0) (Dec.of_Z 1180).

(** A filing of one supplier with two invoices, the second dated year
    first. *)
Definition sample_filing : RawFiling :=
  {| data := Some
       {| rtnprd := Some "012024";
          docdata := Some
            {| b2b := Some
                 [ {| trdnm := Some "Acme Traders";
                      ctin := Some "27AAAAA0000A1Z5";
                      inv := Some
                        [ {| dt := Some "15-01-2024"; inum := Some "INV-001";
                             txval := Some (Dec.of_Z 1000);
                             igst := Some (Dec.of_Z 180);
                             cgst := None; sgst := None;
                             val := Some (Dec.mk false 118001 (-2)) |};
                          {| dt := Some "2024-01-15"; inum := Some "INV-002";
                             txval := Some (Dec.of_Z 1000);
                             igst := Some (Dec.of_Z 180);
                             cgst := None; sgst := None;
                             val := Some (Dec.of_Z 1180) |} ] |} ] |} |} |}.

(** ** Further observations and sample filings *)

(** The ledger a call creates when its name is new. *)
Definition ledger_of (c : Call) : Ledger :=
  {| NAME := call_name c;
     PARENT := call_group c;
     ISBILLWISEON :=
       if String.eqb (call_group c) "Sundry Creditors" then "Yes" else "No";
     TAXTYPE := if call_is_gst c then Some "GST" else None;
     GSTDUTYHEAD := if call_is_gst c then call_gst_head c else None |}.

(** The calls whose name was not asked for before, [seen] being the names
    asked for so far. *)
Fixpoint first_by_name (seen : gset (option string)) (cs : list Call)
    : list Call :=
  match cs with
  | [] => []
  | c :: rest =>
      if decide (call_name c ∈ seen) then first_by_name seen rest
      else c :: first_by_name (seen ∪ {[ call_name c ]}) rest
  end.

Definition round_off_call : Call :=
  {| call_name := Some "Round Off"; call_group := "Indirect Expenses";
     call_is_gst := false; call_gst_head := None |}.

(** The shape of a ledger the planner can create: a supplier under Sundry
    Creditors with bill-wise tracking, the Round Off and purchase ledgers
    without it and without a tax type, a tax ledger under Duties & Taxes
    with tax type GST and one of the three duty heads. *)
Definition ledger_shape (l : Ledger) : Prop :=
  (PARENT l = "Sundry Creditors" /\ ISBILLWISEON l = "Yes"
   /\ TAXTYPE l = None /\ GSTDUTYHEAD l = None)
  \/ ((PARENT l = "Indirect Expenses" \/ PARENT l = "Purchase Accounts")
      /\ ISBILLWISEON l = "No" /\ TAXTYPE l = None /\ GSTDUTYHEAD l = None)
  \/ (PARENT l = "Duties & Taxes" /\ ISBILLWISEON l = "No"
      /\ TAXTYPE l = Some "GST"
      /\ (GSTDUTYHEAD l = Some "Integrated Tax"
          \/ GSTDUTYHEAD l = Some "Central Tax"
          \/ GSTDUTYHEAD l = Some "State Tax")).

(** A filing whose only supplier has no trade name. *)
Definition nameless_filing : RawFiling :=
  {| data := Some
       {| rtnprd := Some "012024";
          docdata := Some
            {| b2b := Some
                 [ {| trdnm := None;
                      ctin := Some "27AAAAA0000A1Z5";
                      inv := Some
                        [ {| dt := Some "15-01-2024"; inum := Some "INV-001";
                             txval := Some (Dec.of_Z 1000);
                             igst := Some (Dec.of_Z 180);
                             cgst := None; sgst := None;
                             val := Some (Dec.of_Z 1180) |} ] |} ] |} |} |}.


(** The zero-padded spelling of a date: two digits, a dash, two digits, a
    dash, four digits. *)
Definition digit_char (n : Z) : ascii := ascii_of_nat (Z.to_nat (48 + n)).
Definition two_digits (n : Z) (rest : string) : string :=
  String (digit_char (n / 10)) (String (digit_char (n mod 10)) rest).
Definition canonical_dmy (y m d : Z) : string :=
  two_digits d (String "-" (two_digits m (String "-"
    (two_digits (y / 100) (two_digits (y mod 100) ""))))).

(** A magnitude of at most [10^K]. *)
Definition bounded (K : Z) (d : Dec.t) : Prop :=
  0 <= K - Dec.exp d /\ Dec.int d <= 10 ^ (K - Dec.exp d).

(** An invoice the builder can always handle: a date that parses, a taxable
    value and a total that fit 28 digits once rounded, and taxes below 10^22
    currency units each. *)
Definition moderate (i : Invoice) : Prop :=
  is_ok (strptime_dmy (date i)) = true
  /\ nearest_cent (taxable_value i) < 10 ^ 28
  /\ nearest_cent (total_invoice_value i) < 10 ^ 28
  /\ nearest_cent (igst_amount i) < 10 ^ 24
  /\ nearest_cent (cgst_amount i) < 10 ^ 24
  /\ nearest_cent (sgst_amount i) < 10 ^ 24.

(** A tax of 10^25 on a taxable value of one hundredth: every amount rounds
    within 28 digits, the rate does not. *)
Definition steep_invoice : Invoice :=
  sample_invoice "15-01-2024" (Dec.mk false 1 (-2)) (Dec.mk false 1 25)
    (Dec.of_Z 0) (Dec.of_Z 0) (Dec.mk false 1 25).

(** A filing whose supplier name holds the control character U+0001. *)
Definition control_character_filing : RawFiling :=
  {| data := Some
       {| rtnprd := Some "012024";
          docdata := Some
            {| b2b := Some
                 [ {| trdnm := Some (String "001" "Acme Traders");
                      ctin := Some "27AAAAA0000A1Z5";
                      inv := Some
                        [ {| dt := Some "15-01-2024"; inum := Some "INV-001";
                             txval := Some (Dec.of_Z 1000);
                             igst := Some (Dec.of_Z 180);
                             cgst := None; sgst := None;
                             val := Some (Dec.of_Z 1180) |} ] |} ] |} |} |}.

(** A credit note: a taxable value and a total of -5.00, no tax. *)
Definition credit_note_invoice : Invoice :=
  sample_invoice "15-01-2024" (Dec.mk true 500 (-2)) (Dec.of_Z 0)
    (Dec.of_Z 0) (Dec.of_Z 0) (Dec.mk true 500 (-2)).

(** * Facts about the decimal fragment *)

Module DecFacts.
Import Dec.

Lemma pow10_pos (k : Z) : 0 <= k -> 0 < 10 ^ k.
Proof. intros. apply Z.pow_pos_nonneg; lia. Qed.

Lemma int_nonneg (d : t) : 0 <= int d.
Proof. unfold int. lia. Qed.

Lemma int_triple s c e : 0 <= c -> int (triple s c e) = c.
Proof. intros. unfold int, triple. simpl. lia. Qed.

Lemma triple_int (d : t) : triple (sign d) (int d) (exp d) = d.
Proof. destruct d as [s c e]. unfold triple, int. simpl. f_equal. lia. Qed.

Lemma ndigits_fuel_spec (fuel : nat) : forall c,
  0 < c -> c < 10 ^ (Z.of_nat fuel + 1) ->
  10 ^ (ndigits_fuel fuel c - 1) <= c < 10 ^ ndigits_fuel fuel c
  /\ 1 <= ndigits_fuel fuel c.
Proof.
  induction fuel as [|f IH]; intros c Hc Hlt; simpl ndigits_fuel.
  - change (10 ^ (1 - 1)) with 1. change (10 ^ 1) with 10.
    change (10 ^ (Z.of_nat 0 + 1)) with 10 in Hlt. lia.
  - destruct (Z.ltb_spec c 10) as [Hs|Hs].
    + change (10 ^ (1 - 1)) with 1. change (10 ^ 1) with 10. lia.
    + replace (Z.of_nat (S f) + 1) with (Z.succ (Z.of_nat f + 1)) in Hlt by lia.
      rewrite Z.pow_succ_r in Hlt by lia.
      assert (Hq : 0 < c / 10) by (apply Z.div_str_pos; lia).
      assert (Hq' : c / 10 < 10 ^ (Z.of_nat f + 1))
        by (apply Z.div_lt_upper_bound; lia).
      destruct (IH (c / 10) Hq Hq') as [[Hlo Hhi] Hn].
      set (n := ndigits_fuel f (c / 10)) in *.
      replace (1 + n - 1) with (Z.succ (n - 1)) by lia.
      replace (1 + n) with (Z.succ n) by lia.
      rewrite !Z.pow_succ_r by lia.
      pose proof (Z.div_mod c 10 ltac:(lia)).
      pose proof (Z.mod_pos_bound c 10 ltac:(lia)).
      lia.
Qed.

Lemma ndigits_spec (c : Z) :
  0 < c -> 10 ^ (ndigits c - 1) <= c < 10 ^ ndigits c /\ 1 <= ndigits c.
Proof.
  intros Hc. unfold ndigits. apply ndigits_fuel_spec; [lia|].
  destruct (Z.log2_spec c Hc) as [_ Hhi].
  pose proof (Z.log2_nonneg c).
  rewrite Z2Nat.id by lia.
  eapply Z.lt_le_trans; [exact Hhi|].
  replace (Z.succ (Z.log2 c)) with (Z.log2 c + 1) by lia.
  apply Z.pow_le_mono_l. lia.
Qed.

Lemma ndigits_zero : ndigits 0 = 1.
Proof. reflexivity. Qed.

Lemma ndigits_le (c n : Z) :
  0 <= c -> 1 <= n -> (ndigits c <= n <-> c < 10 ^ n).
Proof.
  intros Hc Hn.
  destruct (Z.eq_dec c 0) as [->|Hne].
  - rewrite ndigits_zero. pose proof (pow10_pos n). lia.
  - destruct (ndigits_spec c ltac:(lia)) as [[Hlo Hhi] H1]. split; intros H.
    + eapply Z.lt_le_trans; [exact Hhi|]. apply Z.pow_le_mono_r; lia.
    + assert (10 ^ (ndigits c - 1) < 10 ^ n) by lia.
      apply Z.pow_lt_mono_r_iff in H0; lia.
Qed.

Lemma ndigits_gtb (c : Z) :
  0 <= c -> (ndigits c >? prec) = negb (c <? 10 ^ 28).
Proof.
  intros Hc. pose proof (ndigits_le c 28 Hc ltac:(lia)) as H. unfold prec.
  destruct (Z.gtb_spec (ndigits c) 28), (Z.ltb_spec c (10 ^ 28)); simpl; lia.
Qed.

(** A coefficient of at most 28 digits is left as it is. *)
Lemma fix_small (d : t) : int d < 10 ^ 28 -> fix_ d = d.
Proof.
  intros H. unfold fix_.
  pose proof (ndigits_le (int d) 28 (int_nonneg d) ltac:(lia)) as Hn.
  unfold prec. destruct (Z.leb_spec (ndigits (int d)) 28); [reflexivity|lia].
Qed.

Lemma div_half_even_bounds (c p : Z) :
  0 <= c -> 0 < p -> c / p <= div_half_even c p <= c / p + 1.
Proof. intros. unfold div_half_even. destruct (_ || _); lia. Qed.

(** The result of [_fix] has at most 28 digits, the sign of its argument,
    and is zero only for a zero. *)
Lemma fix_facts (d : t) :
  int (fix_ d) < 10 ^ 28 /\ sign (fix_ d) = sign d
  /\ (0 < int d -> 0 < int (fix_ d)) /\ (int d = 0 -> int (fix_ d) = 0).
Proof.
  unfold fix_. pose proof (int_nonneg d) as H0.
  pose proof (ndigits_le (int d) 28 H0 ltac:(lia)) as Hn. unfold prec.
  destruct (Z.leb_spec (ndigits (int d)) 28) as [Hs|Hs].
  - repeat split; auto; lia.
  - assert (Hpos : 0 < int d).
    { destruct (Z.eq_dec (int d) 0) as [E|E]; [|lia].
      rewrite E, ndigits_zero in Hs. lia. }
    destruct (ndigits_spec (int d) Hpos) as [[Hlo Hhi] _].
    set (n := ndigits (int d)) in *. set (k := n - 28).
    pose proof (pow10_pos k ltac:(lia)) as Hk.
    pose proof (div_half_even_bounds (int d) (10 ^ k) H0 Hk) as [Hq1 Hq2].
    set (c := div_half_even (int d) (10 ^ k)) in *.
    assert (Hsplit : 10 ^ n = 10 ^ 28 * 10 ^ k).
    { rewrite <- Z.pow_add_r by lia. f_equal. lia. }
    assert (Hsplit' : 10 ^ (n - 1) = 10 ^ 27 * 10 ^ k).
    { rewrite <- Z.pow_add_r by lia. f_equal. lia. }
    assert (Hq3 : int d / 10 ^ k < 10 ^ 28)
      by (apply Z.div_lt_upper_bound; lia).
    assert (Hq4 : 10 ^ 27 <= int d / 10 ^ k)
      by (apply Z.div_le_lower_bound; lia).
    rewrite ndigits_gtb by lia.
    destruct (Z.ltb_spec c (10 ^ 28)) as [Hc|Hc]; simpl.
    + rewrite int_triple by lia. repeat split; simpl; lia.
    + assert (c = 10 ^ 28) as -> by lia.
      rewrite int_triple by (apply Z.div_pos; lia).
      change (10 ^ 28 / 10) with (10 ^ 27). repeat split; simpl; lia.
Qed.

Lemma fix_bound (d : t) : int (fix_ d) < 10 ^ 28.
Proof. apply fix_facts. Qed.

Lemma fix_sign (d : t) : sign (fix_ d) = sign d.
Proof. apply fix_facts. Qed.

Lemma div_half_up_spec (c p : Z) :
  0 <= c -> 0 < p -> 2 * c - p < 2 * p * div_half_up c p <= 2 * c + p.
Proof.
  intros Hc Hp. unfold div_half_up.
  pose proof (Z.div_mod c p ltac:(lia)).
  pose proof (Z.mod_pos_bound c p Hp).
  rewrite Z.geb_leb. destruct (Z.leb_spec p (2 * (c mod p))); nia.
Qed.

Lemma div_half_up_nonneg (c p : Z) : 0 <= c -> 0 < p -> 0 <= div_half_up c p.
Proof.
  intros. unfold div_half_up.
  pose proof (Z.div_pos c p ltac:(lia) ltac:(lia)).
  destruct (_ >=? _); lia.
Qed.

Lemma nearest_cent_nonneg (d : t) : 0 <= nearest_cent d.
Proof.
  unfold nearest_cent. pose proof (int_nonneg d).
  destruct (Z.leb_spec (-2) (exp d)).
  - pose proof (pow10_pos (exp d + 2) ltac:(lia)). nia.
  - apply div_half_up_nonneg; [lia|]. apply pow10_pos. lia.
Qed.

(** [r2] returns the nearest hundredth, at exponent -2 and with the sign of
    its argument, and raises InvalidOperation exactly when that needs more
    than 28 digits. *)
Lemma r2_eq (d : t) :
  r2 d = if nearest_cent d <? 10 ^ 28
         then Ok (triple (sign d) (nearest_cent d) (-2))
         else Raise InvalidOperation.
Proof.
  pose proof (int_nonneg d) as H0.
  pose proof (nearest_cent_nonneg d) as Hnn.
  unfold r2, quantize, is_zero.
  destruct (Z.eqb_spec (int d) 0) as [Hz|Hz].
  - assert (nearest_cent d = 0) as ->.
    { unfold nearest_cent, div_half_up. rewrite Hz.
      destruct (Z.leb_spec (-2) (exp d)); [lia|].
      pose proof (pow10_pos (-2 - exp d) ltac:(lia)).
      rewrite Z.mod_0_l, Z.div_0_l by lia.
      rewrite Z.geb_leb. destruct (Z.leb_spec (10 ^ (-2 - exp d)) (2 * 0)); lia. }
    change (0 <? 10 ^ 28) with true. cbv iota.
    rewrite fix_small; [reflexivity|]. rewrite int_triple; lia.
  - destruct (ndigits_spec (int d) ltac:(lia)) as [[Hlo Hhi] Hn1].
    unfold adjusted, prec. set (n := ndigits (int d)) in *.
    assert (Hans : int (rescale d (-2) ROUND_HALF_UP) = nearest_cent d
                   /\ rescale d (-2) ROUND_HALF_UP
                      = triple (sign d) (nearest_cent d) (-2)).
    { unfold rescale, is_zero, nearest_cent in *.
      destruct (Z.eqb_spec (int d) 0); [lia|].
      replace (exp d - -2) with (exp d + 2) by lia.
      replace (-2 - exp d) with (-2 - exp d) by lia.
      destruct (Z.leb_spec (-2) (exp d)); simpl round_div;
        (split; [apply int_triple; lia|reflexivity]). }
    destruct Hans as [Hint Hans].
    destruct (Z.gtb_spec (exp d + n - 1 - -2 + 1) 28) as [Hbig|Hok].
    + (* too many digits before rounding: the target is at least 10^28 *)
      destruct (Z.ltb_spec (nearest_cent d) (10 ^ 28)) as [Hlt|]; [|reflexivity].
      exfalso. unfold nearest_cent in Hlt.
      destruct (Z.leb_spec (-2) (exp d)) as [He|He].
      * assert (10 ^ 28 <= 10 ^ (n - 1) * 10 ^ (exp d + 2)).
        { rewrite <- Z.pow_add_r by lia. apply Z.pow_le_mono_r; lia. }
        pose proof (pow10_pos (exp d + 2) ltac:(lia)). nia.
      * set (p := 10 ^ (-2 - exp d)) in *.
        assert (Hp : 0 < p) by (apply pow10_pos; lia).
        assert (10 ^ 28 * p <= 10 ^ (n - 1)).
        { unfold p. rewrite <- Z.pow_add_r by lia. apply Z.pow_le_mono_r; lia. }
        pose proof (div_half_up_spec (int d) p H0 Hp). nia.
    + rewrite Hint, ndigits_gtb by lia.
      destruct (Z.ltb_spec (nearest_cent d) (10 ^ 28)); simpl; [|reflexivity].
      rewrite Hans, fix_small; [reflexivity|]. rewrite int_triple; lia.
Qed.

Lemma r2_ok (d x : t) :
  r2 d = Ok x ->
  exp x = -2 /\ sign x = sign d /\ int x = nearest_cent d /\ int x < 10 ^ 28.
Proof.
  rewrite r2_eq. pose proof (nearest_cent_nonneg d).
  destruct (Z.ltb_spec (nearest_cent d) (10 ^ 28)); intros [= <-].
  rewrite int_triple by lia. repeat split; lia.
Qed.

(** *** Comparisons *)

Lemma units_zero (e : Z) : units e (of_Z 0) = 0.
Proof. reflexivity. Qed.

Lemma cmp_zero (d : t) :
  cmp d (of_Z 0) = ((if sign d then - int d else int d) ?= 0).
Proof.
  unfold cmp. rewrite units_zero. unfold units.
  change (exp (of_Z 0)) with 0.
  pose proof (pow10_pos (exp d - Z.min (exp d) 0) ltac:(lia)) as Hp.
  set (p := 10 ^ _) in *. pose proof (int_nonneg d).
  destruct (sign d);
    destruct (Z.compare_spec (- int d * p) 0), (Z.compare_spec (- int d) 0),
             (Z.compare_spec (int d * p) 0), (Z.compare_spec (int d) 0);
    try reflexivity; nia.
Qed.

Lemma eqb_zero (d : t) : eqb d (of_Z 0) = is_zero d.
Proof.
  unfold eqb, is_zero. rewrite cmp_zero. pose proof (int_nonneg d).
  destruct (sign d);
    [ destruct (Z.compare_spec (- int d) 0)
    | destruct (Z.compare_spec (int d) 0) ];
    destruct (Z.eqb_spec (int d) 0); try reflexivity; lia.
Qed.

Lemma gtb_zero (d : t) : gtb d (of_Z 0) = negb (sign d) && (0 <? int d).
Proof.
  unfold gtb. rewrite cmp_zero. pose proof (int_nonneg d).
  destruct (sign d);
    [ destruct (Z.compare_spec (- int d) 0)
    | destruct (Z.compare_spec (int d) 0) ];
    destruct (Z.ltb_spec 0 (int d)); try reflexivity; lia.
Qed.

(** *** Amounts at exponent -2 *)

Lemma cents_exp2 (d : t) :
  exp d = -2 -> cents d = if sign d then - int d else int d.
Proof.
  intros E. unfold cents, units. rewrite E. change (10 ^ (-2 - -2)) with 1. lia.
Qed.

Lemma cents_triple (s : bool) (c : Z) :
  0 <= c -> cents (triple s c (-2)) = if s then - c else c.
Proof.
  intros. rewrite cents_exp2 by reflexivity. rewrite int_triple by lia.
  reflexivity.
Qed.

Lemma eqb_cents (a b : t) :
  exp a = -2 -> exp b = -2 -> eqb a b = (cents a =? cents b).
Proof.
  intros Ea Eb. unfold eqb, cmp, cents. rewrite Ea, Eb.
  change (Z.min (-2) (-2)) with (-2).
  destruct (Z.compare_spec (units (-2) a) (units (-2) b)),
           (Z.eqb_spec (units (-2) a) (units (-2) b)); try reflexivity; lia.
Qed.

Lemma gtb_cents (d : t) :
  exp d = -2 -> gtb d (of_Z 0) = (0 <? cents d).
Proof.
  intros E. rewrite gtb_zero, cents_exp2 by exact E. pose proof (int_nonneg d).
  destruct (sign d); simpl;
    [ destruct (Z.ltb_spec 0 (- int d)) | ]; try reflexivity; lia.
Qed.

Lemma rescale_same (d : t) (e : Z) (m : rounding) :
  exp d = e -> rescale d e m = d.
Proof.
  intros <-. unfold rescale, is_zero.
  destruct (Z.eqb_spec (int d) 0) as [Hz|Hz].
  - rewrite <- Hz. apply triple_int.
  - rewrite Z.leb_refl, Z.sub_diag. change (10 ^ 0) with 1.
    rewrite Z.mul_1_r. apply triple_int.
Qed.

(** Within 28 digits addition is exact. *)
Lemma add_exact (a b : t) :
  exp a = -2 -> exp b = -2 -> int a < 10 ^ 28 -> int b < 10 ^ 28 ->
  Z.abs (cents a + cents b) < 10 ^ 28 ->
  exp (add a b) = -2 /\ cents (add a b) = cents a + cents b
  /\ int (add a b) = Z.abs (cents a + cents b).
Proof.
  intros Ea Eb Ha Hb Hs.
  pose proof (int_nonneg a). pose proof (int_nonneg b).
  pose proof (cents_exp2 a Ea) as Ca. pose proof (cents_exp2 b Eb) as Cb.
  unfold add, is_zero. rewrite Ea, Eb.
  change (Z.min (-2) (-2)) with (-2).
  change (Z.max (-2) (-2 - prec - 1)) with (-2).
  fold (cents a) (cents b).
  destruct (Z.eqb_spec (int a) 0) as [Za|Za],
           (Z.eqb_spec (int b) 0) as [Zb|Zb]; simpl andb; cbv iota.
  - rewrite fix_small by (rewrite int_triple; lia).
    rewrite cents_triple, int_triple by lia.
    destruct (sign a), (sign b); simpl; repeat split; lia.
  - rewrite rescale_same, fix_small by assumption.
    destruct (sign a), (sign b); repeat split; lia.
  - rewrite rescale_same, fix_small by assumption.
    destruct (sign a), (sign b); repeat split; lia.
  - destruct (Z.eqb_spec (cents a + cents b) 0) as [E0|E0].
    + rewrite fix_small by (rewrite int_triple; lia).
      rewrite cents_triple, int_triple by lia. repeat split; lia.
    + rewrite fix_small by (rewrite int_triple; lia).
      rewrite cents_triple, int_triple by lia.
      destruct (Z.ltb_spec (cents a + cents b) 0); repeat split; lia.
Qed.

Lemma copy_negate_facts (d : t) :
  exp (copy_negate d) = exp d /\ int (copy_negate d) = int d
  /\ cents (copy_negate d) = - cents d.
Proof.
  unfold copy_negate, cents, units, int. simpl.
  destruct (sign d); simpl; repeat split; lia.
Qed.

Lemma sub_exact (a b : t) :
  exp a = -2 -> exp b = -2 -> int a < 10 ^ 28 -> int b < 10 ^ 28 ->
  Z.abs (cents a - cents b) < 10 ^ 28 ->
  exp (sub a b) = -2 /\ cents (sub a b) = cents a - cents b
  /\ int (sub a b) = Z.abs (cents a - cents b).
Proof.
  intros Ea Eb Ha Hb Hs. unfold sub.
  destruct (copy_negate_facts b) as (E & I & C).
  replace (cents a - cents b) with (cents a + cents (copy_negate b)) in * by lia.
  apply add_exact; try lia.
Qed.

(** The result of an addition never exceeds 28 digits. *)
Lemma add_bound (a b : t) : int (add a b) < 10 ^ 28.
Proof.
  unfold add.
  destruct (is_zero a && is_zero b); [apply fix_bound|].
  destruct (is_zero a); [apply fix_bound|].
  destruct (is_zero b); [apply fix_bound|].
  destruct (_ =? 0); apply fix_bound.
Qed.

Lemma sub_bound (a b : t) : int (sub a b) < 10 ^ 28.
Proof. apply add_bound. Qed.

(** Unary minus negates the value of a number of at most 28 digits. *)
Lemma cents_neg (d : t) : int d < 10 ^ 28 -> cents (neg d) = - cents d.
Proof.
  intros H. unfold neg, is_zero.
  destruct (Z.eqb_spec (int d) 0) as [Hz|Hz].
  - rewrite fix_small by exact H.
    unfold cents, units, copy_abs, int in *. simpl.
    destruct (sign d); lia.
  - rewrite fix_small by (destruct (copy_negate_facts d) as (_ & -> & _); exact H).
    apply copy_negate_facts.
Qed.

(** *** Signs of sums and differences *)

Lemma units_signed (e : Z) (d : t) : units e d = signed d * 10 ^ (exp d - e).
Proof. reflexivity. Qed.

Lemma cmp_zero_signed (d : t) : cmp d (of_Z 0) = (signed d ?= 0).
Proof. apply cmp_zero. Qed.

Lemma signed_fix (d : t) :
  (0 < signed d -> 0 < signed (fix_ d)) /\
  (signed d < 0 -> signed (fix_ d) < 0) /\
  (signed d = 0 -> signed (fix_ d) = 0).
Proof.
  destruct (fix_facts d) as (_ & Hs & Hp & Hz). unfold signed. rewrite Hs.
  pose proof (int_nonneg d). pose proof (int_nonneg (fix_ d)).
  destruct (sign d); repeat split; lia.
Qed.

Lemma signed_triple (s : bool) (c e : Z) :
  0 <= c -> signed (triple s c e) = if s then - c else c.
Proof. intros. unfold signed. rewrite int_triple by lia. reflexivity. Qed.

(** Padding with zeros keeps the sign. *)
Lemma signed_rescale_pad (d : t) (e : Z) (m : rounding) :
  e <= exp d ->
  (0 < signed d -> 0 < signed (rescale d e m)) /\
  (signed d < 0 -> signed (rescale d e m) < 0).
Proof.
  intros He. unfold rescale, is_zero. pose proof (int_nonneg d).
  destruct (Z.eqb_spec (int d) 0) as [Hz|Hz].
  - unfold signed at 1 3. rewrite Hz. destruct (sign d); lia.
  - destruct (Z.leb_spec e (exp d)); [|lia].
    pose proof (pow10_pos (exp d - e) ltac:(lia)).
    rewrite signed_triple by nia. unfold signed.
    destruct (sign d); split; nia.
Qed.

Lemma compare_sign_eq (x y : Z) :
  (0 < x <-> 0 < y) -> (x < 0 <-> y < 0) -> (x ?= 0) = (y ?= 0).
Proof.
  intros. destruct (Z.compare_spec x 0), (Z.compare_spec y 0);
    try reflexivity; lia.
Qed.

(** The sign of [a + b] as computed is the sign of the exact sum. *)
Lemma cmp_add_zero (a b : t) :
  cmp (add a b) (of_Z 0)
  = (units (Z.min (exp a) (exp b)) a + units (Z.min (exp a) (exp b)) b ?= 0).
Proof.
  rewrite cmp_zero_signed. set (e := Z.min (exp a) (exp b)).
  rewrite !units_signed.
  pose proof (pow10_pos (exp a - e) ltac:(lia)) as Pa.
  pose proof (pow10_pos (exp b - e) ltac:(lia)) as Pb.
  assert (Za : is_zero a = true -> signed a = 0).
  { unfold is_zero, signed. intros ->%Z.eqb_eq. destruct (sign a); reflexivity. }
  assert (Zb : is_zero b = true -> signed b = 0).
  { unfold is_zero, signed. intros ->%Z.eqb_eq. destruct (sign b); reflexivity. }
  assert (Na : is_zero a = false -> signed a <> 0).
  { unfold is_zero, signed. intros ?%Z.eqb_neq. destruct (sign a); lia. }
  assert (Nb : is_zero b = false -> signed b <> 0).
  { unfold is_zero, signed. intros ?%Z.eqb_neq. destruct (sign b); lia. }
  assert (H : (0 < signed (add a b)
               <-> 0 < signed a * 10 ^ (exp a - e) + signed b * 10 ^ (exp b - e))
              /\ (signed (add a b) < 0
               <-> signed a * 10 ^ (exp a - e) + signed b * 10 ^ (exp b - e) < 0));
    [|apply compare_sign_eq; apply H].
  unfold add; fold e.
  destruct (is_zero a) eqn:Ea, (is_zero b) eqn:Eb; simpl andb; cbv iota.
  all: try (rewrite Za by reflexivity). all: try (rewrite Zb by reflexivity).
  all: try specialize (Na eq_refl). all: try specialize (Nb eq_refl).
  all: rewrite ?Z.mul_0_l, ?Z.add_0_l, ?Z.add_0_r.
  - destruct (signed_fix (triple (sign a && sign b) 0 e)) as (_ & _ & H0).
    rewrite H0 by (rewrite signed_triple by lia; destruct (_ && _); reflexivity).
    lia.
  - set (r := rescale b _ _).
    destruct (signed_fix r) as (H1 & H2 & H3).
    destruct (signed_rescale_pad b (Z.max e (exp b - prec - 1)) ROUND_HALF_EVEN
                ltac:(unfold prec; lia)) as (H4 & H5).
    fold r in H4, H5.
    destruct (Z.lt_trichotomy (signed b) 0) as [?|[?|?]]; [|lia|].
    + specialize (H5 ltac:(lia)). split; split; intros; try nia; lia.
    + specialize (H4 ltac:(lia)). split; split; intros; try nia; lia.
  - set (r := rescale a _ _).
    destruct (signed_fix r) as (H1 & H2 & H3).
    destruct (signed_rescale_pad a (Z.max e (exp a - prec - 1)) ROUND_HALF_EVEN
                ltac:(unfold prec; lia)) as (H4 & H5).
    fold r in H4, H5.
    destruct (Z.lt_trichotomy (signed a) 0) as [?|[?|?]]; [|lia|].
    + specialize (H5 ltac:(lia)). split; split; intros; try nia; lia.
    + specialize (H4 ltac:(lia)). split; split; intros; try nia; lia.
  - rewrite !units_signed. set (s := signed a * _ + signed b * _).
    destruct (Z.eqb_spec s 0) as [E0|E0].
    + destruct (signed_fix (triple false 0 e)) as (_ & _ & H0).
      rewrite H0 by reflexivity. lia.
    + destruct (signed_fix (triple (s <? 0) (Z.abs s) e)) as (H1 & H2 & _).
      rewrite signed_triple in H1, H2 by lia.
      destruct (Z.ltb_spec s 0); split; split; intros; lia.
Qed.

(** The sign of [a - b] as computed says how [a] and [b] compare. *)
Lemma cmp_sub_zero (a b : t) : cmp (sub a b) (of_Z 0) = cmp a b.
Proof.
  unfold sub. rewrite cmp_add_zero. unfold cmp.
  change (exp (copy_negate b)) with (exp b).
  set (e := Z.min (exp a) (exp b)).
  assert (units e (copy_negate b) = - units e b) as ->.
  { unfold units, copy_negate, int. simpl. destruct (sign b); simpl; lia. }
  destruct (Z.compare_spec (units e a + - units e b) 0),
           (Z.compare_spec (units e a) (units e b)); try reflexivity; lia.
Qed.

Lemma cmp_antisym (a b : t) : cmp b a = CompOpp (cmp a b).
Proof.
  unfold cmp. rewrite (Z.min_comm (exp b) (exp a)). apply Z.compare_antisym.
Qed.

End DecFacts.

(** * Facts about the voucher builder *)

Section Builder.
Import Dec DecFacts.

Lemma bind_ok {A B} (m : result A) (f : A -> result B) (b : B) :
  m ≫= f = Ok b -> exists a, m = Ok a /\ f a = Ok b.
Proof. destruct m as [a|e]; simpl; [eauto|discriminate]. Qed.

Lemma bind_raise {A B} (m : result A) (f : A -> result B) (e : exn) :
  m = Raise e -> m ≫= f = Raise e.
Proof. intros ->. reflexivity. Qed.

(** A voucher is produced exactly when the date parses, the five amounts
    round and the rate is computed; it is then [voucher_of] these values. *)
Lemma build_voucher_ok (i : Invoice) (v : Voucher) :
  build_voucher i = Ok v <->
  exists ymd taxable igst cgst sgst total rate,
    strptime_dmy (date i) = Ok ymd /\
    r2 (taxable_value i) = Ok taxable /\
    r2 (igst_amount i) = Ok igst /\
    r2 (cgst_amount i) = Ok cgst /\
    r2 (sgst_amount i) = Ok sgst /\
    r2 (total_invoice_value i) = Ok total /\
    voucher_rate (add (add igst cgst) sgst) taxable = Ok rate /\
    v = voucher_of i ymd taxable igst cgst sgst total rate.
Proof.
  unfold build_voucher. split.
  - intros H.
    apply bind_ok in H as (ymd & H1 & H).
    apply bind_ok in H as (taxable & H2 & H).
    apply bind_ok in H as (igst & H3 & H).
    apply bind_ok in H as (cgst & H4 & H).
    apply bind_ok in H as (sgst & H5 & H).
    apply bind_ok in H as (total & H6 & H).
    apply bind_ok in H as (rate & H7 & H).
    injection H as <-.
    exists ymd, taxable, igst, cgst, sgst, total, rate. repeat split; assumption.
  - intros (ymd & taxable & igst & cgst & sgst & total & rate
            & -> & -> & -> & -> & -> & -> & H7 & ->).
    simpl. rewrite H7. reflexivity.
Qed.

Lemma pct_not_round_off (label : string) (rate : Z) :
  label = "Interstate Purchase" \/ label = "Local Purchase" \/
  label = "Input IGST" \/ label = "Input CGST" \/ label = "Input SGST" ->
  String.eqb (pct label rate) "Round Off" = false.
Proof. intros [->|[->|[->|[->| ->]]]]; reflexivity. Qed.

(** The Round Off entry is the balancing line, when there is one. *)
Lemma round_off_line_voucher_of i ymd taxable igst cgst sgst total rate :
  round_off_line (voucher_of i ymd taxable igst cgst sgst total rate)
  = head (round_off_lines (add taxable (add (add igst cgst) sgst)) total).
Proof.
  unfold round_off_line, voucher_of, tax_lines, debit_line. simpl tail.
  destruct (gtb igst (of_Z 0)); simpl;
    rewrite ?pct_not_round_off by tauto;
    unfold round_off_lines; destruct (negb _); reflexivity.
Qed.

Lemma foldr_amounts_app (l1 l2 : list VoucherLine) :
  foldr (fun l acc => amount_cents (AMOUNT l) + acc) 0 (l1 ++ l2)
  = foldr (fun l acc => amount_cents (AMOUNT l) + acc) 0 l1
    + foldr (fun l acc => amount_cents (AMOUNT l) + acc) 0 l2.
Proof. induction l1 as [|x l1 IH]; simpl; [reflexivity|rewrite IH; lia]. Qed.

(** With amounts below 10^25 the decimal arithmetic of the loop body is
    exact, and the entries add up to the tax that got no entry of its own:
    cgst + sgst on the interstate branch, igst on the other. *)
Lemma voucher_balance_small i v taxable igst cgst sgst total :
  build_voucher i = Ok v ->
  r2 (taxable_value i) = Ok taxable ->
  r2 (igst_amount i) = Ok igst ->
  r2 (cgst_amount i) = Ok cgst ->
  r2 (sgst_amount i) = Ok sgst ->
  r2 (total_invoice_value i) = Ok total ->
  small taxable -> small igst -> small cgst -> small sgst -> small total ->
  voucher_balance v
  = if gtb igst (of_Z 0) then cents cgst + cents sgst else cents igst.
Proof.
  intros Hv H2 H3 H4 H5 H6 St Si Sc Ss Sv.
  apply build_voucher_ok in Hv
    as (ymd & ? & ? & ? & ? & ? & rate & _ & E2 & E3 & E4 & E5 & E6 & _ & ->).
  rewrite H2 in E2. rewrite H3 in E3. rewrite H4 in E4. rewrite H5 in E5.
  rewrite H6 in E6.
  injection E2 as <-. injection E3 as <-. injection E4 as <-.
  injection E5 as <-. injection E6 as <-.
  apply r2_ok in H2 as (Et & _ & _ & _). apply r2_ok in H3 as (Ei & _ & _ & _).
  apply r2_ok in H4 as (Ec & _ & _ & _). apply r2_ok in H5 as (Es & _ & _ & _).
  apply r2_ok in H6 as (Ev & _ & _ & _).
  unfold small in *.
  assert (P : 10 ^ 28 = 10 * 10 ^ 27) by reflexivity.
  assert (Bt : Z.abs (cents taxable) = int taxable)
    by (rewrite cents_exp2 by assumption; pose proof (int_nonneg taxable);
        destruct (sign taxable); lia).
  assert (Bi : Z.abs (cents igst) = int igst)
    by (rewrite cents_exp2 by assumption; pose proof (int_nonneg igst);
        destruct (sign igst); lia).
  assert (Bc : Z.abs (cents cgst) = int cgst)
    by (rewrite cents_exp2 by assumption; pose proof (int_nonneg cgst);
        destruct (sign cgst); lia).
  assert (Bs : Z.abs (cents sgst) = int sgst)
    by (rewrite cents_exp2 by assumption; pose proof (int_nonneg sgst);
        destruct (sign sgst); lia).
  assert (Bv : Z.abs (cents total) = int total)
    by (rewrite cents_exp2 by assumption; pose proof (int_nonneg total);
        destruct (sign total); lia).
  destruct (add_exact igst cgst) as (E1 & C1 & I1); try lia.
  destruct (add_exact (add igst cgst) sgst) as (E2 & C2 & I2); try lia.
  set (tax_total := add (add igst cgst) sgst) in *.
  destruct (add_exact taxable tax_total) as (E3 & C3 & I3); try lia.
  set (debit_calc := add taxable tax_total) in *.
  destruct (sub_exact total debit_calc) as (E4 & C4 & I4); try lia.
  unfold voucher_balance, voucher_of. cbv zeta.
  fold tax_total. fold debit_calc. cbn [lines app foldr].
  rewrite !foldr_amounts_app.
  unfold round_off_lines, tax_lines. rewrite (eqb_cents debit_calc total) by assumption.
  destruct (gtb igst (of_Z 0));
    destruct (Z.eqb_spec (cents debit_calc) (cents total)); simpl;
    rewrite ?cents_neg by lia; lia.
Qed.

End Builder.

(** * Facts about the ledger planner *)

Section Planner.

Lemma plan_interstate_calls igst taxable st :
  plan_interstate igst taxable st
  = cs ← interstate_calls igst taxable; Ok (foldl run_call st cs).
Proof.
  unfold plan_interstate, interstate_calls.
  destruct (_ && _); [|reflexivity]. destruct (py_round _); reflexivity.
Qed.

Lemma plan_local_calls cgst sgst taxable st :
  plan_local cgst sgst taxable st
  = cs ← local_calls cgst sgst taxable; Ok (foldl run_call st cs).
Proof.
  unfold plan_local, local_calls.
  destruct (_ && _); [|reflexivity]. destruct (py_round _); reflexivity.
Qed.

(** The loop body is the run of its calls. *)
Lemma plan_invoice_calls (i : Invoice) (st : Masters) :
  plan_invoice i st = cs ← ledger_calls i; Ok (foldl run_call st cs).
Proof.
  unfold plan_invoice, ledger_calls.
  destruct (py_float (taxable_value i)) as [taxable|]; [|reflexivity].
  destruct (py_float (igst_amount i)) as [igst|]; [|reflexivity].
  destruct (py_float (cgst_amount i)) as [cgst|]; [|reflexivity].
  destruct (py_float (sgst_amount i)) as [sgst|]; [|reflexivity].
  simpl. rewrite plan_interstate_calls.
  destruct (interstate_calls igst taxable) as [a|]; [|reflexivity].
  simpl. rewrite plan_local_calls.
  destruct (local_calls cgst sgst taxable) as [b|]; [|reflexivity].
  simpl. rewrite foldl_app. reflexivity.
Qed.

Lemma plan_invoices_calls (invoices : list Invoice) : forall st,
  plan_invoices invoices st
  = cs ← all_calls invoices; Ok (foldl run_call st cs).
Proof.
  induction invoices as [|i rest IH]; intros st; simpl; [reflexivity|].
  rewrite plan_invoice_calls.
  destruct (ledger_calls i) as [a|]; [|reflexivity]. simpl.
  rewrite IH. destruct (all_calls rest) as [b|]; [|reflexivity]. simpl.
  rewrite foldl_app. reflexivity.
Qed.

Lemma all_calls_app (xs ys : list Invoice) :
  all_calls (xs ++ ys) = a ← all_calls xs; b ← all_calls ys; Ok (a ++ b).
Proof.
  induction xs as [|i xs IH]; simpl.
  - destruct (all_calls ys); reflexivity.
  - destruct (ledger_calls i) as [a|]; [|reflexivity]. simpl. rewrite IH.
    destruct (all_calls xs) as [b|]; [|reflexivity]. simpl.
    destruct (all_calls ys) as [c|]; [|reflexivity]. simpl.
    rewrite app_assoc. reflexivity.
Qed.

(** A call for a name already created changes nothing. *)
Lemma run_call_known (st : Masters) (c : Call) :
  call_name c ∈ created st -> run_call st c = st.
Proof.
  intros H. unfold run_call, create_ledger_elem.
  destruct (decide _); [reflexivity|contradiction].
Qed.

Lemma run_call_created (st : Masters) (c : Call) :
  created (run_call st c) = created st ∪ {[ call_name c ]}.
Proof.
  unfold run_call, create_ledger_elem.
  destruct (decide _) as [Hin|Hin]; simpl; [|reflexivity].
  apply set_eq. intros x. rewrite elem_of_union, elem_of_singleton.
  split; [auto|intros [H| ->]; assumption].
Qed.

Lemma run_call_inv (st : Masters) (c : Call) :
  masters_inv st -> masters_inv (run_call st c).
Proof.
  intros [Hc Hn]. unfold masters_inv, run_call, create_ledger_elem.
  destruct (decide _) as [Hin|Hin]; [split; assumption|]. simpl.
  rewrite fmap_app, list_to_set_app_L. simpl. split.
  - rewrite Hc, (right_id_L ∅ (∪)). reflexivity.
  - apply NoDup_app. split; [assumption|]. split.
    + intros x Hx ->%list_elem_of_singleton. apply Hin. rewrite Hc.
      apply elem_of_list_to_set. exact Hx.
    + apply NoDup_singleton.
Qed.

Lemma foldl_run_call_inv (cs : list Call) : forall st,
  masters_inv st -> masters_inv (foldl run_call st cs).
Proof.
  induction cs as [|c cs IH]; intros st H; simpl; [exact H|].
  apply IH, run_call_inv, H.
Qed.

Lemma foldl_run_call_created (cs : list Call) : forall st,
  created (foldl run_call st cs)
  = created st ∪ list_to_set (call_name <$> cs).
Proof.
  induction cs as [|c cs IH]; intros st; simpl.
  - rewrite (right_id_L ∅ (∪)). reflexivity.
  - rewrite IH, run_call_created, (assoc_L (∪)). reflexivity.
Qed.

Lemma foldl_run_call_known (cs : list Call) : forall st,
  (forall c, c ∈ cs -> call_name c ∈ created st) ->
  foldl run_call st cs = st.
Proof.
  induction cs as [|c cs IH]; intros st H; simpl; [reflexivity|].
  rewrite run_call_known by (apply H; left).
  apply IH. intros c' Hc'. apply H. right. exact Hc'.
Qed.

(** Running the same calls a second time changes nothing. *)
Lemma foldl_run_call_twice (cs : list Call) (st : Masters) :
  foldl run_call st (cs ++ cs) = foldl run_call st cs.
Proof.
  rewrite foldl_app. apply foldl_run_call_known. intros c Hc.
  rewrite foldl_run_call_created. apply elem_of_union_r, elem_of_list_to_set.
  apply list_elem_of_fmap. exists c. split; [reflexivity|exact Hc].
Qed.

Lemma masters_inv_empty : masters_inv {| req_data := []; created := ∅ |}.
Proof. split; simpl; [reflexivity|apply NoDup_nil_2]. Qed.

Lemma plan_inv (invoices : list Invoice) (st : Masters) :
  plan invoices = Ok st -> masters_inv st.
Proof.
  unfold plan. rewrite plan_invoices_calls.
  destruct (all_calls invoices) as [cs|]; [|discriminate].
  intros [= <-]. apply foldl_run_call_inv.
  apply (run_call_inv _ {| call_name := Some "Round Off";
                           call_group := "Indirect Expenses";
                           call_is_gst := false; call_gst_head := None |}).
  apply masters_inv_empty.
Qed.

Lemma plan_twice (invoices : list Invoice) :
  plan (invoices ++ invoices) = plan invoices.
Proof.
  unfold plan. rewrite !plan_invoices_calls, all_calls_app.
  destruct (all_calls invoices) as [cs|]; [|reflexivity]. simpl.
  rewrite foldl_run_call_twice. reflexivity.
Qed.

End Planner.

(** * Facts about zero amounts, exceptions and the two loops *)

Section Loops.
Import Dec DecFacts.

Lemma nearest_cent_zero (d : t) : is_zero d = true -> nearest_cent d = 0.
Proof.
  unfold is_zero, nearest_cent, div_half_up. intros ->%Z.eqb_eq.
  destruct (Z.leb_spec (-2) (exp d)); [lia|].
  pose proof (pow10_pos (-2 - exp d) ltac:(lia)).
  rewrite Z.mod_0_l, Z.div_0_l by lia.
  rewrite Z.geb_leb. destruct (Z.leb_spec (10 ^ (-2 - exp d)) (2 * 0)); lia.
Qed.

(** A zero rounds to a zero of the same sign with two places. *)
Lemma r2_zero (d : t) : is_zero d = true -> r2 d = Ok (mk (sign d) 0 (-2)).
Proof. intros H. rewrite r2_eq, nearest_cent_zero by exact H. reflexivity. Qed.

Lemma fix_zero (s : bool) (e : Z) : fix_ (triple s 0 e) = triple s 0 e.
Proof. reflexivity. Qed.

Lemma add_zero (a b : t) :
  is_zero a = true -> is_zero b = true ->
  add a b = mk (sign a && sign b) 0 (Z.min (exp a) (exp b)).
Proof. intros Ha Hb. unfold add. rewrite Ha, Hb. reflexivity. Qed.

Lemma is_zero_triple (s : bool) (e : Z) : is_zero (triple s 0 e) = true.
Proof. reflexivity. Qed.

Lemma div_zero_l (a b : t) :
  is_zero a = true -> is_zero b = false ->
  div a b = Ok (triple (xorb (sign a) (sign b)) 0 (exp a - exp b)).
Proof. intros Ha Hb. unfold div. rewrite Ha, Hb. reflexivity. Qed.

Lemma mul_zero_l (a b : t) :
  is_zero a = true ->
  mul a b = triple (xorb (sign a) (sign b)) 0 (exp a + exp b).
Proof. intros Ha. unfold mul. rewrite Ha. reflexivity. Qed.

Lemma quantize_zero (d : t) (e : Z) (m : rounding) :
  is_zero d = true -> quantize d e m = Ok (triple (sign d) 0 e).
Proof. intros Hd. unfold quantize. rewrite Hd. reflexivity. Qed.

Lemma bind_Ok {A B} (a : A) (f : A -> result B) : Ok a ≫= f = f a.
Proof. reflexivity. Qed.

(** Without tax the rate is 0, whatever the taxable value. *)
Lemma voucher_rate_no_tax (tax_total taxable : t) :
  is_zero tax_total = true -> voucher_rate tax_total taxable = Ok 0.
Proof.
  intros Hz. unfold voucher_rate. rewrite eqb_zero.
  destruct (is_zero taxable) eqn:Ht; [reflexivity|]. simpl negb. cbv iota.
  rewrite div_zero_l, bind_Ok by assumption.
  rewrite mul_zero_l by apply is_zero_triple.
  rewrite quantize_zero, bind_Ok by apply is_zero_triple.
  unfold to_int. simpl. destruct (xorb _ _); reflexivity.
Qed.

(** With a zero taxable value the rate is 0 by the guard. *)
Lemma voucher_rate_zero_taxable (tax_total taxable : t) :
  is_zero taxable = true -> voucher_rate tax_total taxable = Ok 0.
Proof. intros Hz. unfold voucher_rate. rewrite eqb_zero, Hz. reflexivity. Qed.

Lemma quantize_raise (d : t) (e : Z) (m : rounding) (x : exn) :
  quantize d e m = Raise x -> x = InvalidOperation.
Proof.
  unfold quantize. destruct (is_zero d); [discriminate|].
  destruct (_ >? _); [congruence|]. destruct (_ >? _); congruence.
Qed.

Lemma bind_raise_inv {A B} (m : result A) (f : A -> result B) (x : exn) :
  m ≫= f = Raise x -> m = Raise x \/ exists a, m = Ok a /\ f a = Raise x.
Proof. destruct m as [a|e]; simpl; [eauto|intros [= <-]; auto]. Qed.

(** A division raises only on a zero divisor. *)
Lemma div_raise (a b : t) (x : exn) : div a b = Raise x -> is_zero b = true.
Proof.
  unfold div. destruct (is_zero b); [reflexivity|].
  destruct (is_zero a); [discriminate|].
  match goal with |- context [let '(c, e') := ?p in _] => destruct p end.
  discriminate.
Qed.

Lemma voucher_rate_raise (tax_total taxable : t) (x : exn) :
  voucher_rate tax_total taxable = Raise x -> x = InvalidOperation.
Proof.
  unfold voucher_rate. rewrite eqb_zero.
  destruct (is_zero taxable) eqn:Ht; simpl negb; cbv iota; [discriminate|].
  intros H. apply bind_raise_inv in H as [H|(q & _ & H)].
  - apply div_raise in H. congruence.
  - apply bind_raise_inv in H as [H|(q' & _ & H)]; [|discriminate].
    eapply quantize_raise, H.
Qed.

Lemma strptime_dmy_raise (s : option string) (x : exn) :
  strptime_dmy s = Raise x -> x = TypeError \/ x = ValueError.
Proof.
  unfold strptime_dmy. destruct s; [|intros [= <-]; auto].
  destruct (Strptime.parse _); [discriminate|intros [= <-]; auto].
Qed.

(** The only exceptions of the loop body: a date that does not parse
    (TypeError, ValueError) and a decimal beyond 28 digits
    (InvalidOperation). *)
Lemma build_voucher_raise (i : Invoice) (x : exn) :
  build_voucher i = Raise x ->
  x = TypeError \/ x = ValueError \/ x = InvalidOperation.
Proof.
  unfold build_voucher.
  destruct (strptime_dmy (date i)) eqn:D; simpl;
    [|intros [= <-]; apply strptime_dmy_raise in D; tauto].
  destruct (r2 (taxable_value i)) eqn:R1; simpl;
    [|intros [= <-]; apply quantize_raise in R1; tauto].
  destruct (r2 (igst_amount i)) eqn:R2; simpl;
    [|intros [= <-]; apply quantize_raise in R2; tauto].
  destruct (r2 (cgst_amount i)) eqn:R3; simpl;
    [|intros [= <-]; apply quantize_raise in R3; tauto].
  destruct (r2 (sgst_amount i)) eqn:R4; simpl;
    [|intros [= <-]; apply quantize_raise in R4; tauto].
  destruct (r2 (total_invoice_value i)) eqn:R5; simpl;
    [|intros [= <-]; apply quantize_raise in R5; tauto].
  destruct (voucher_rate _ _) eqn:V; simpl; [discriminate|].
  intros [= <-]. apply voucher_rate_raise in V. tauto.
Qed.

(** The builder's loop appends the voucher of each invoice, in order, and
    fails as soon as one invoice fails. *)
Lemma build_vouchers_ok (invoices : list Invoice) : forall acc vs,
  build_vouchers invoices acc = Ok vs <->
  exists new, vs = acc ++ new
    /\ Forall2 (fun i v => build_voucher i = Ok v) invoices new.
Proof.
  induction invoices as [|i rest IH]; intros acc vs; simpl.
  - split.
    + intros [= <-]. exists []. rewrite app_nil_r. split; constructor.
    + intros (new & -> & H). inversion H. rewrite app_nil_r. reflexivity.
  - split.
    + intros H. apply bind_ok in H as (v & Hv & H).
      apply IH in H as (new & -> & H). exists (v :: new).
      rewrite <- app_assoc. split; [reflexivity|]. constructor; assumption.
    + intros (new & -> & H). inversion H as [|? v ? new' Hv H']; subst.
      rewrite Hv. simpl. apply IH. exists new'.
      rewrite <- app_assoc. split; [reflexivity|assumption].
Qed.

Lemma generate_vouchers_string_ok invoices company_name doc :
  generate_vouchers_string invoices company_name = Ok doc <->
  vouchers_company doc = company_name
  /\ Forall2 (fun i v => build_voucher i = Ok v) invoices (vouchers doc).
Proof.
  unfold generate_vouchers_string. split.
  - intros H. apply bind_ok in H as (vs & Hvs & [= <-]).
    apply build_vouchers_ok in Hvs as (new & -> & H). simpl. split; auto.
  - intros [Hc H]. destruct doc as [c vs]. simpl in *. subst c.
    assert (build_vouchers invoices [] = Ok vs) as ->
      by (apply build_vouchers_ok; exists vs; auto).
    reflexivity.
Qed.

(** The extractor's inner loop appends one record per raw invoice. *)
Lemma extract_inner (f : RawInvoice -> Invoice) (l : list RawInvoice) :
  forall acc, fold_left (fun acc i => acc ++ [f i]) l acc = acc ++ map f l.
Proof.
  induction l as [|x l IH]; intros acc; simpl.
  - rewrite app_nil_r. reflexivity.
  - rewrite IH, <- app_assoc. reflexivity.
Qed.

Lemma extract_outer (rp : string) (l : list Supplier) : forall acc,
  fold_left
    (fun acc s =>
       fold_left (fun acc i => acc ++ [extract_invoice rp s i])
         (default [] (inv s)) acc) l acc
  = acc ++ concat (map (fun s => map (extract_invoice rp s) (default [] (inv s))) l).
Proof.
  induction l as [|s l IH]; intros acc; simpl.
  - rewrite app_nil_r. reflexivity.
  - rewrite IH, extract_inner, <- app_assoc. reflexivity.
Qed.

End Loops.

(** * Worked examples *)

(** Taxable value 1000 with an igst of 180: the planner creates the ledgers
    of 18 percent, the builder books on them, and the entries balance. *)
Example interstate_18_percent :
  let i := sample_invoice "15-01-2024" (Dec.of_Z 1000) (Dec.of_Z 180)
             (Dec.of_Z 0) (Dec.of_Z 0) (Dec.of_Z 1180) in
  (fun st => NAME <$> req_data st) <$> plan [i]
  = Ok [ Some "Round Off"; Some "Acme Traders";
         Some "Interstate Purchase 18%"; Some "Input IGST 18%" ]
  /\ (fun v => ((fun l => (LEDGERNAME l, amount_text (AMOUNT l))) <$> lines v,
                voucher_balance v)) <$> build_voucher i
     = Ok ([ ("Acme Traders", "1180.00");
             ("Interstate Purchase 18%", "-1000.00");
             ("Input IGST 18%", "-180.00") ], 0).
Proof. split; vm_compute; reflexivity. Qed.

(** Taxable value 1000 with a cgst and an sgst of 90: combined rate 18,
    half-rate labels 9. *)
Example local_18_percent :
  let i := sample_invoice "15-01-2024" (Dec.of_Z 1000) (Dec.of_Z 0)
             (Dec.of_Z 90) (Dec.of_Z 90) (Dec.of_Z 1180) in
  (fun st => NAME <$> req_data st) <$> plan [i]
  = Ok [ Some "Round Off"; Some "Acme Traders"; Some "Local Purchase 18%";
         Some "Input CGST 9%"; Some "Input SGST 9%" ]
  /\ (fun v => LEDGERNAME <$> lines v) <$> build_voucher i
     = Ok [ "Acme Traders"; "Local Purchase 18%"; "Input CGST 9%";
            "Input SGST 9%" ].
Proof. split; vm_compute; reflexivity. Qed.

(** A combined rate of 17: both half-rate labels read 8, by floor
    division. *)
Example local_17_percent :
  let i := sample_invoice "15-01-2024" (Dec.of_Z 1000) (Dec.of_Z 0)
             (Dec.of_Z 85) (Dec.of_Z 85) (Dec.of_Z 1170) in
  (fun st => NAME <$> req_data st) <$> plan [i]
  = Ok [ Some "Round Off"; Some "Acme Traders"; Some "Local Purchase 17%";
         Some "Input CGST 8%"; Some "Input SGST 8%" ]
  /\ (fun v => LEDGERNAME <$> lines v) <$> build_voucher i
     = Ok [ "Acme Traders"; "Local Purchase 17%"; "Input CGST 8%";
            "Input SGST 8%" ].
Proof. split; vm_compute; reflexivity. Qed.

(** A filing without [data.docdata.b2b] yields no invoice, and a missing
    return period reads N/A. *)
Example empty_filing :
  process_gstr2b_logic {| data := None |} = []
  /\ return_period
       <$> process_gstr2b_logic
             {| data := Some
                  {| rtnprd := None;
                     docdata := Some
                       {| b2b := Some
                            [ {| trdnm := None; ctin := None;
                                 inv := Some
                                   [ {| dt := None; inum := None;
                                        txval := None; igst := None;
                                        cgst := None; sgst := None;
                                        val := None |} ] |} ] |} |} |}
     = ["N/A"].
Proof. split; reflexivity. Qed.

(** * The claims of the specification *)

(** ** C1: the entries of a voucher balance *)

(** C1, counterexample.  The invoice 100 + 18 igst + 9 cgst + 9 sgst with
    total 136 and date 15-01-2024 yields a voucher with the entries 136.00,
    -100.00 and -18.00 and no Round Off entry; they add up to 18.00, not
    to zero. *)
Lemma C1_mixed_invoice_unbalanced :
  exists v, build_voucher mixed_invoice = Ok v
    /\ amount_text <$> (AMOUNT <$> lines v) = ["136.00"; "-100.00"; "-18.00"]
    /\ voucher_balance v = 1800
    /\ voucher_balance v <> 0.
Proof.
  eexists. split; [vm_compute; reflexivity|].
  split; [vm_compute; reflexivity|]. split; [vm_compute; reflexivity|].
  vm_compute. discriminate.
Qed.

(** Beyond 28 digits the decimal context rounds the sums: the entries of the
    voucher of [huge_invoice], a purely local invoice, add up to -0.01. *)
Lemma huge_invoice_unbalanced :
  exists v, build_voucher huge_invoice = Ok v /\ voucher_balance v = -1.
Proof. eexists. split; vm_compute; reflexivity. Qed.

(** C1 (amended).  For every invoice for which a voucher is produced (its
    date parses), whose rounded amounts are each below 10^25 in magnitude
    and whose tax is either interstate only (igst > 0 and cgst + sgst = 0)
    or has igst = 0, the signed AMOUNT values of the voucher's entries
    (party credit, purchase debit, tax debits and the Round Off entry when
    there is one) add up to exactly zero. *)
Theorem C1_voucher_balances (i : Invoice) (v : Voucher)
    (taxable igst cgst sgst total : Dec.t) :
  build_voucher i = Ok v ->
  r2 (taxable_value i) = Ok taxable ->
  r2 (igst_amount i) = Ok igst ->
  r2 (cgst_amount i) = Ok cgst ->
  r2 (sgst_amount i) = Ok sgst ->
  r2 (total_invoice_value i) = Ok total ->
  small taxable -> small igst -> small cgst -> small sgst -> small total ->
  (0 < Dec.cents igst /\ Dec.cents cgst + Dec.cents sgst = 0)
  \/ Dec.cents igst = 0 ->
  voucher_balance v = 0.
Proof.
  intros Hv H2 H3 H4 H5 H6 St Si Sc Ss Sv Hcov.
  rewrite (voucher_balance_small i v taxable igst cgst sgst total) by assumption.
  apply DecFacts.r2_ok in H3 as (Ei & _).
  rewrite DecFacts.gtb_cents by exact Ei.
  destruct (Z.ltb_spec 0 (Dec.cents igst)); lia.
Qed.

(** C1, witness: the interstate invoice 1000 + 180 with total 1180.01, whose
    voucher carries a Round Off entry. *)
Lemma C1_voucher_balances_witness :
  exists v, build_voucher interstate_invoice = Ok v
    /\ is_Some (round_off_line v) /\ voucher_balance v = 0.
Proof.
  eexists. split; [vm_compute; reflexivity|]. split; [vm_compute; eauto|].
  eapply (C1_voucher_balances interstate_invoice _
            (Dec.mk false 100000 (-2)) (Dec.mk false 18000 (-2))
            (Dec.mk false 0 (-2)) (Dec.mk false 0 (-2))
            (Dec.mk false 118001 (-2)));
    try (vm_compute; reflexivity).
  left. split; vm_compute; reflexivity.
Defined.

(** ** C2: the interstate and the local step of the planner *)

(** C2, counterexample.  For the invoice 100 + 18 igst + 9 cgst + 9 sgst the
    interstate condition holds and the local step runs all the same: one
    run over this single invoice creates the ledgers of both families. *)
Lemma C2_both_families_registered :
  (fun st => NAME <$> req_data st) <$> plan [mixed_invoice]
  = Ok [ Some "Round Off"; Some "Acme Traders";
         Some "Interstate Purchase 18%"; Some "Input IGST 18%";
         Some "Local Purchase 18%"; Some "Input CGST 9%";
         Some "Input SGST 9%" ]
  /\ (float_pos 18 && float_pos 100 = true)
  /\ exists cs, ledger_calls mixed_invoice = Ok cs
       /\ registers_interstate cs /\ registers_local cs.
Proof.
  split; [vm_compute; reflexivity|]. split; [vm_compute; reflexivity|].
  eexists. split; [vm_compute; reflexivity|]. split.
  - eexists. split; [apply elem_of_cons; right;
                     apply elem_of_cons; right;
                     apply elem_of_cons; left; reflexivity|reflexivity].
  - eexists. split; [apply elem_of_cons; right;
                     apply elem_of_cons; right;
                     apply elem_of_cons; right;
                     apply elem_of_cons; right;
                     apply elem_of_cons; left; reflexivity|reflexivity].
Qed.

Lemma interstate_calls_heads igst taxable a :
  interstate_calls igst taxable = Ok a ->
  (registers_interstate a <-> float_pos igst && float_pos taxable = true)
  /\ ~ registers_local a.
Proof.
  unfold interstate_calls, registers_interstate, registers_local.
  destruct (_ && _).
  - intros H. apply bind_ok in H as (rate & _ & [= <-]). split; [split; auto|].
    + intros _. eexists. split; [right; left|reflexivity].
    + intros (c & Hc & Hh).
      repeat (apply elem_of_cons in Hc as [->|Hc]; [discriminate|]).
      inversion Hc.
  - intros [= <-]. split; [split; [|discriminate]|];
      intros (c & Hc & _); inversion Hc.
Qed.

Lemma local_calls_heads cgst sgst taxable b :
  local_calls cgst sgst taxable = Ok b ->
  (registers_local b
   <-> (float_pos cgst || float_pos sgst) && float_pos taxable = true)
  /\ ~ registers_interstate b.
Proof.
  unfold local_calls, registers_interstate, registers_local.
  destruct (_ && _).
  - intros H. apply bind_ok in H as (rate & _ & [= <-]). split; [split; auto|].
    + intros _. eexists. split; [right; left|reflexivity].
    + intros (c & Hc & Hh).
      repeat (apply elem_of_cons in Hc as [->|Hc]; [discriminate|]).
      inversion Hc.
  - intros [= <-]. split; [split; [|discriminate]|];
      intros (c & Hc & _); inversion Hc.
Qed.

(** C2 (amended).  For every invoice the planner's loop body handles, the
    interstate step registers its ledgers exactly when igst_amount > 0 and
    taxable_value > 0, and the local step registers its ledgers exactly when
    (cgst_amount > 0 or sgst_amount > 0) and taxable_value > 0, whether or
    not the interstate step ran.  So one invoice registers both families
    exactly when its taxable value and igst are positive and one of cgst and
    sgst is; an invoice with igst_amount <= 0, or with neither cgst nor sgst
    positive, registers at most one. *)
Theorem C2_steps_independent (i : Invoice) (taxable igst cgst sgst : float)
    (cs : list Call) :
  py_float (taxable_value i) = Ok taxable ->
  py_float (igst_amount i) = Ok igst ->
  py_float (cgst_amount i) = Ok cgst ->
  py_float (sgst_amount i) = Ok sgst ->
  ledger_calls i = Ok cs ->
  (forall st, plan_invoice i st = Ok (foldl run_call st cs))
  /\ (registers_interstate cs
      <-> float_pos igst && float_pos taxable = true)
  /\ (registers_local cs
      <-> (float_pos cgst || float_pos sgst) && float_pos taxable = true)
  /\ (registers_interstate cs /\ registers_local cs
      <-> float_pos taxable && float_pos igst
          && (float_pos cgst || float_pos sgst) = true).
Proof.
  intros Ht Hi Hc Hs Hcs.
  split; [intros st; rewrite plan_invoice_calls, Hcs; reflexivity|].
  unfold ledger_calls in Hcs. rewrite Ht, Hi, Hc, Hs in Hcs. simpl in Hcs.
  apply bind_ok in Hcs as (a & Ha & Hcs).
  apply bind_ok in Hcs as (b & Hb & [= <-]).
  destruct (interstate_calls_heads _ _ _ Ha) as [Ia Na].
  destruct (local_calls_heads _ _ _ _ Hb) as [Lb Nb].
  assert (RI : registers_interstate
                 ({| call_name := supplier_name i;
                     call_group := "Sundry Creditors";
                     call_is_gst := false; call_gst_head := None |} :: a ++ b)
               <-> registers_interstate a).
  { unfold registers_interstate in *. split.
    - intros (c & Hin & Hh). apply elem_of_cons in Hin as [->|Hin];
        [discriminate|].
      apply elem_of_app in Hin as [Hin|Hin]; [eauto|].
      exfalso. apply Nb. eauto.
    - intros (c & Hin & Hh). exists c. split; [|exact Hh].
      right. apply elem_of_app. auto. }
  assert (RL : registers_local
                 ({| call_name := supplier_name i;
                     call_group := "Sundry Creditors";
                     call_is_gst := false; call_gst_head := None |} :: a ++ b)
               <-> registers_local b).
  { unfold registers_local in *. split.
    - intros (c & Hin & Hh). apply elem_of_cons in Hin as [->|Hin];
        [discriminate|].
      apply elem_of_app in Hin as [Hin|Hin]; [|eauto].
      exfalso. apply Na. eauto.
    - intros (c & Hin & Hh). exists c. split; [|exact Hh].
      right. apply elem_of_app. auto. }
  rewrite RI, RL, Ia, Lb.
  split; [tauto|]. split; [tauto|].
  destruct (float_pos igst), (float_pos taxable), (float_pos cgst),
           (float_pos sgst); simpl; intuition congruence.
Qed.

(** C2, witness: the invoice of the counterexample. *)
Lemma C2_steps_independent_witness :
  exists cs, ledger_calls mixed_invoice = Ok cs
    /\ registers_interstate cs /\ registers_local cs.
Proof.
  eexists. split; [vm_compute; reflexivity|].
  eapply (C2_steps_independent mixed_invoice 100%float 18%float 9%float
            9%float); vm_compute; reflexivity.
Defined.

(** ** C3: the ledger names of the builder against those of the planner *)

(** C3, the code at a failing input.  For the interstate invoice 134 +
    2.01 igst (1.5 percent) the planner computes 2.01 / 134 * 100 in binary
    floating point, gets 1.4999999999999998 and creates the ledgers of
    1 percent; the builder computes 1.5 in decimal, rounds the tie to the
    even 2 and books on the ledgers of 2 percent, which the planner never
    created. *)
Theorem C3_rates_disagree :
  (fun v => LEDGERNAME <$> lines v) <$> build_voucher diamond_invoice
  = Ok ["Acme Traders"; "Interstate Purchase 2%"; "Input IGST 2%"]
  /\ (fun st => NAME <$> req_data st) <$> plan [diamond_invoice]
     = Ok [ Some "Round Off"; Some "Acme Traders";
            Some "Interstate Purchase 1%"; Some "Input IGST 1%" ]
  /\ (igst ← py_float (igst_amount diamond_invoice);
      taxable ← py_float (taxable_value diamond_invoice);
      Ok (PrimFloat.mul (PrimFloat.div igst taxable) 100))
     = Ok 0x1.7ffffffffffffp+0%float
  /\ py_round 0x1.7ffffffffffffp+0 = Ok 1
  /\ voucher_rate (Dec.mk false 201 (-2)) (Dec.mk false 13400 (-2)) = Ok 2.
Proof. repeat split; vm_compute; reflexivity. Qed.

(** ** C4: planning twice, and one ledger per name *)

Lemma all_calls_elem (invoices : list Invoice) : forall acs i cs c,
  all_calls invoices = Ok acs -> i ∈ invoices -> ledger_calls i = Ok cs ->
  c ∈ cs -> c ∈ acs.
Proof.
  induction invoices as [|j rest IH]; intros acs i cs c Ha Hi Hc Hin.
  - inversion Hi.
  - simpl in Ha. apply bind_ok in Ha as (a & Hj & Ha).
    apply bind_ok in Ha as (b & Hb & [= <-]).
    apply elem_of_app.
    apply elem_of_cons in Hi as [->|Hi].
    + left. congruence.
    + right. eapply IH; eauto.
Qed.

(** C4.  Planning the duplicated sequence invoices ++ invoices gives exactly
    what planning invoices gives: the same ledgers in the same order (and
    the same failure, when planning fails), hence the same masters document.
    In the ledgers of one run no name occurs twice, and the name of every
    call of [create_ledger_elem] the run makes, Round Off included, occurs
    among them: one ledger per distinct name, however many invoices ask for
    it. *)
Theorem C4_planning_idempotent (invoices : list Invoice)
    (company_name : string) :
  plan (invoices ++ invoices) = plan invoices
  /\ generate_masters_string (invoices ++ invoices) company_name
     = generate_masters_string invoices company_name
  /\ forall st, plan invoices = Ok st ->
       NoDup (NAME <$> req_data st)
       /\ Some "Round Off" ∈ NAME <$> req_data st
       /\ forall i cs c,
            i ∈ invoices -> ledger_calls i = Ok cs -> c ∈ cs ->
            call_name c ∈ NAME <$> req_data st.
Proof.
  split; [apply plan_twice|]. split.
  - unfold generate_masters_string. rewrite plan_twice. reflexivity.
  - intros st Hst. pose proof (plan_inv _ _ Hst) as [Hc Hn].
    split; [exact Hn|].
    unfold plan in Hst. rewrite plan_invoices_calls in Hst.
    apply bind_ok in Hst as (acs & Ha & [= <-]).
    rewrite foldl_run_call_created in Hc.
    assert (Hin : forall n,
              n ∈ created
                    (create_ledger_elem (Some "Round Off") "Indirect Expenses"
                       false None {| req_data := []; created := ∅ |})
                  ∪ list_to_set (call_name <$> acs) ->
              n ∈ NAME <$> req_data
                    (foldl run_call
                       (create_ledger_elem (Some "Round Off")
                          "Indirect Expenses" false None
                          {| req_data := []; created := ∅ |}) acs)).
    { intros n Hn'. rewrite Hc in Hn'.
      apply elem_of_list_to_set in Hn'. exact Hn'. }
    split.
    + apply Hin, elem_of_union_l. vm_compute. reflexivity.
    + intros i cs c Hi Hcs Hcin. apply Hin, elem_of_union_r.
      apply elem_of_list_to_set, list_elem_of_fmap. exists c.
      split; [reflexivity|]. eapply all_calls_elem; eauto.
Qed.

(** ** C5: rounding to two places, ties up in magnitude *)

(** C5.  [r2] returns the argument's magnitude in hundredths rounded to the
    nearest integer, a tie going to the larger magnitude, at exponent -2
    (two fractional digits) and with the argument's sign, so a tie goes away
    from zero; the only failure is InvalidOperation, when the result would
    need more than 28 digits.  In particular r2(1.005) = 1.01 and
    r2(2.675) = 2.68 (the arguments being the numerals [str] gives for these
    floats), and r2(-1.005) = -1.01. *)
Theorem C5_r2_rounds_half_up :
  (forall d : Dec.t,
     r2 d = (if nearest_cent d <? 10 ^ 28
             then Ok (Dec.mk (Dec.sign d) (Z.to_N (nearest_cent d)) (-2))
             else Raise InvalidOperation)
     /\ 0 <= nearest_cent d
     /\ (-2 <= Dec.exp d ->
         nearest_cent d = Dec.int d * 10 ^ (Dec.exp d + 2))
     /\ (Dec.exp d < -2 ->
         let p := 10 ^ (-2 - Dec.exp d) in
         2 * Dec.int d - p < 2 * p * nearest_cent d <= 2 * Dec.int d + p))
  /\ r2 (Dec.mk false 1005 (-3)) = Ok (Dec.mk false 101 (-2))
  /\ r2 (Dec.mk false 2675 (-3)) = Ok (Dec.mk false 268 (-2))
  /\ r2 (Dec.mk true 1005 (-3)) = Ok (Dec.mk true 101 (-2)).
Proof.
  split; [|repeat split; vm_compute; reflexivity].
  intros d. split; [apply DecFacts.r2_eq|].
  split; [apply DecFacts.nearest_cent_nonneg|].
  unfold nearest_cent. split; intros H.
  - destruct (Z.leb_spec (-2) (Dec.exp d)); [reflexivity|lia].
  - destruct (Z.leb_spec (-2) (Dec.exp d)); [lia|].
    apply DecFacts.div_half_up_spec;
      [apply DecFacts.int_nonneg|apply DecFacts.pow10_pos; lia].
Qed.

(** ** C6: a zero taxable value *)

(** C6.  For every invoice whose taxable_value is zero, whose date parses
    and whose other amounts round, the rounded taxable value is a zero, the
    rate is 0 by the guard, and the voucher is produced; and no invoice at
    all makes the builder raise a division by zero. *)
Theorem C6_zero_taxable_value (i : Invoice) (ymd : Z * Z * Z)
    (igst cgst sgst total : Dec.t) :
  Dec.is_zero (taxable_value i) = true ->
  strptime_dmy (date i) = Ok ymd ->
  r2 (igst_amount i) = Ok igst ->
  r2 (cgst_amount i) = Ok cgst ->
  r2 (sgst_amount i) = Ok sgst ->
  r2 (total_invoice_value i) = Ok total ->
  let taxable := Dec.mk (Dec.sign (taxable_value i)) 0 (-2) in
  r2 (taxable_value i) = Ok taxable
  /\ voucher_rate (Dec.add (Dec.add igst cgst) sgst) taxable = Ok 0
  /\ build_voucher i = Ok (voucher_of i ymd taxable igst cgst sgst total 0)
  /\ forall j : Invoice, build_voucher j <> Raise DivisionByZero.
Proof.
  intros Hz Hd H3 H4 H5 H6 taxable.
  assert (H2 : r2 (taxable_value i) = Ok taxable) by (apply r2_zero, Hz).
  assert (Hr : voucher_rate (Dec.add (Dec.add igst cgst) sgst) taxable = Ok 0)
    by (apply voucher_rate_zero_taxable; reflexivity).
  split; [exact H2|]. split; [exact Hr|]. split.
  - apply build_voucher_ok.
    exists ymd, taxable, igst, cgst, sgst, total, 0. repeat split; assumption.
  - intros j Hj. apply build_voucher_raise in Hj as [Hj|[Hj|Hj]]; discriminate.
Qed.

(** C6, witness: taxable value 0 under an igst of 18; the purchase entry is
    booked on the 0 percent ledger. *)
Lemma C6_zero_taxable_value_witness :
  (LEDGERNAME <$> lines
     (voucher_of zero_taxable_invoice (2024, 1, 15) (Dec.mk false 0 (-2))
        (Dec.mk false 1800 (-2)) (Dec.mk false 0 (-2)) (Dec.mk false 0 (-2))
        (Dec.mk false 1800 (-2)) 0)
   = ["Acme Traders"; "Interstate Purchase 0%"; "Input IGST 0%"])
  /\ build_voucher zero_taxable_invoice
     = Ok (voucher_of zero_taxable_invoice (2024, 1, 15) (Dec.mk false 0 (-2))
             (Dec.mk false 1800 (-2)) (Dec.mk false 0 (-2))
             (Dec.mk false 0 (-2)) (Dec.mk false 1800 (-2)) 0).
Proof.
  split; [vm_compute; reflexivity|].
  apply (C6_zero_taxable_value zero_taxable_invoice (2024, 1, 15)
           (Dec.mk false 1800 (-2)) (Dec.mk false 0 (-2))
           (Dec.mk false 0 (-2)) (Dec.mk false 1800 (-2)));
    vm_compute; reflexivity.
Defined.

(** ** C7: a date that does not parse aborts the conversion *)

(** C7, counterexample.  The dates 1-2-2024 and 15-01-2024 with the year in
    Arabic-Indic digits are not of the form DD-MM-YYYY, yet the builder
    converts the sequence of these two invoices: [strptime] takes a day and
    a month of one digit, and any decimal digit of Unicode where its pattern
    says [\d].  The vouchers are dated 1 February and 15 January 2024. *)
Lemma C7_date_outside_DD_MM_YYYY_converted :
  spec_DD_MM_YYYY "1-2-2024" = false
  /\ spec_DD_MM_YYYY "15-01-٢٠٢٤" = false
  /\ exists doc,
       generate_vouchers_string [short_date_invoice; arabic_year_invoice]
         "Acme Books" = Ok doc
       /\ vch_date <$> vouchers doc = [(2024, 2, 1); (2024, 1, 15)].
Proof.
  split; [vm_compute; reflexivity|]. split; [vm_compute; reflexivity|].
  eexists. split; vm_compute; reflexivity.
Qed.

(** C7.  For every invoice sequence with at least one invoice whose date
    [strptime] rejects under the format %d-%m-%Y (the date is missing, the
    text is not a day, a dash, a month, a dash and a year of four digits as
    [Strptime.parse] reads them, or it names no date of the calendar),
    [generate_vouchers_string] raises and returns no document, whatever the
    other invoices are; and so does [process_gst] on every filing these
    invoices are extracted from. *)
Theorem C7_unparseable_date_aborts (invoices : list Invoice)
    (company_name : string) :
  Exists (fun i => is_ok (strptime_dmy (date i)) = false) invoices ->
  (exists e, generate_vouchers_string invoices company_name = Raise e)
  /\ forall raw_json,
       process_gstr2b_logic raw_json = invoices ->
       exists e, process_gst raw_json company_name = Raise e.
Proof.
  intros Hbad.
  assert (Hv : exists e, generate_vouchers_string invoices company_name = Raise e).
  { destruct (generate_vouchers_string invoices company_name) as [doc|e] eqn:G;
      [exfalso|eauto].
    apply generate_vouchers_string_ok in G as [_ G].
    revert G. generalize (vouchers doc) as vs.
    induction Hbad as [i rest Hp|i rest _ IH]; intros vs G;
      inversion G as [|? v ? vs' Hi G']; subst.
    - apply build_voucher_ok in Hi as (? & ? & ? & ? & ? & ? & ? & D & _).
      rewrite D in Hp. discriminate.
    - eapply IH, G'. }
  split; [exact Hv|]. intros raw_json <-. unfold process_gst.
  destruct (generate_masters_string _ _) as [m|e]; [|eauto].
  destruct Hv as [e ->]. eauto.
Qed.

(** C7, witness: the second invoice of [sample_filing] is dated 2024-01-15;
    the first one alone would give a voucher. *)
Lemma C7_unparseable_date_aborts_witness :
  is_ok (build_voucher interstate_invoice) = true
  /\ (exists e,
        generate_vouchers_string (process_gstr2b_logic sample_filing)
          "Acme Books" = Raise e)
  /\ exists e, process_gst sample_filing "Acme Books" = Raise e.
Proof.
  split; [vm_compute; reflexivity|].
  destruct (C7_unparseable_date_aborts (process_gstr2b_logic sample_filing)
              "Acme Books") as [Hv Hp].
  - apply Exists_cons_tl, Exists_cons_hd. vm_compute. reflexivity.
  - split; [exact Hv|]. apply Hp. reflexivity.
Defined.

(** ** C8: order of the extracted invoices and of the vouchers *)

(** C8.  The extractor returns the records of the raw invoices in traversal
    order: the supplier groups in document order, each group's invoices in
    document order.  The builder succeeds exactly when every invoice yields
    a voucher, and then its document holds the vouchers of the invoices one
    for one and in the same order; in particular it has as many vouchers as
    there are invoices, whatever their invoice numbers. *)
Theorem C8_order_preserved :
  (forall raw_data,
     process_gstr2b_logic raw_data
     = concat
         (map (fun s =>
                 map (extract_invoice (filing_return_period raw_data) s)
                   (default [] (inv s)))
            (filing_suppliers raw_data)))
  /\ (forall invoices company_name doc,
        generate_vouchers_string invoices company_name = Ok doc <->
        vouchers_company doc = company_name
        /\ Forall2 (fun i v => build_voucher i = Ok v) invoices (vouchers doc))
  /\ (forall invoices company_name doc,
        generate_vouchers_string invoices company_name = Ok doc ->
        length (vouchers doc) = length invoices)
  /\ (forall (i : Invoice) company_name doc,
        generate_vouchers_string [i; i] company_name = Ok doc ->
        exists v, build_voucher i = Ok v /\ vouchers doc = [v; v]).
Proof.
  split; [|split; [|split]].
  - intros raw_data. unfold process_gstr2b_logic. cbv zeta.
    rewrite extract_outer. reflexivity.
  - apply generate_vouchers_string_ok.
  - intros invoices company_name doc H.
    apply generate_vouchers_string_ok in H as [_ H].
    symmetry. eapply Forall2_length, H.
  - intros i company_name doc H.
    apply generate_vouchers_string_ok in H as [_ H].
    inversion H as [|? v ? vs Hv H']; subst.
    inversion H' as [|? v' ? vs' Hv' H'']; subst. inversion H''; subst.
    exists v. split; [exact Hv|]. congruence.
Qed.

(** ** C9: the Round Off entry *)

(** C9, counterexample.  For the invoice 1000 + 180 with total 1180.01 the
    difference total_invoice_value - debit_calc is 0.01, and the Round Off
    entry carries -0.01 (with the flag No): the amount is the negated
    difference, not the difference. *)
Lemma C9_round_off_amount_negated :
  exists v l,
    build_voucher interstate_invoice = Ok v
    /\ round_off_line v = Some l
    /\ Dec.cents
         (Dec.sub (Dec.mk false 118001 (-2))
            (Dec.add (Dec.mk false 100000 (-2))
               (Dec.add (Dec.add (Dec.mk false 18000 (-2))
                           (Dec.mk false 0 (-2))) (Dec.mk false 0 (-2)))))
       = 1
    /\ amount_cents (AMOUNT l) = -1
    /\ amount_text (AMOUNT l) = "-0.01"
    /\ ISDEEMEDPOSITIVE l = "No".
Proof.
  do 2 eexists. split; [vm_compute; reflexivity|].
  split; [vm_compute; reflexivity|]. repeat split; vm_compute; reflexivity.
Qed.

(** C9 (amended).  For every produced voucher, with debit_calc the sum the
    builder computes of the rounded taxable value and the rounded taxes and
    diff the difference it computes of the rounded total and debit_calc: a
    Round Off entry is present if and only if debit_calc differs from the
    rounded total; when present, its amount is the negation of diff, that is
    debit_calc - total_invoice_value, and its deemed-positive flag is No when
    diff is positive (the total exceeds debit_calc) and Yes when diff is
    negative, one of the two being the case. *)
Theorem C9_round_off_entry (i : Invoice) (v : Voucher)
    (taxable igst cgst sgst total : Dec.t) :
  build_voucher i = Ok v ->
  r2 (taxable_value i) = Ok taxable ->
  r2 (igst_amount i) = Ok igst ->
  r2 (cgst_amount i) = Ok cgst ->
  r2 (sgst_amount i) = Ok sgst ->
  r2 (total_invoice_value i) = Ok total ->
  let debit_calc := Dec.add taxable (Dec.add (Dec.add igst cgst) sgst) in
  let diff := Dec.sub total debit_calc in
  (is_Some (round_off_line v) <-> Dec.cmp debit_calc total <> Eq)
  /\ forall l, round_off_line v = Some l ->
       LEDGERNAME l = "Round Off"
       /\ AMOUNT l = Plain (Dec.neg diff)
       /\ amount_cents (AMOUNT l) = - Dec.cents diff
       /\ Dec.cmp diff (Dec.of_Z 0) = Dec.cmp total debit_calc
       /\ Dec.cmp total debit_calc <> Eq
       /\ (Dec.cmp total debit_calc = Gt -> ISDEEMEDPOSITIVE l = "No")
       /\ (Dec.cmp total debit_calc = Lt -> ISDEEMEDPOSITIVE l = "Yes")
       /\ (Dec.exp debit_calc = -2 ->
           Z.abs (Dec.cents total - Dec.cents debit_calc) < 10 ^ 28 ->
           amount_cents (AMOUNT l) = Dec.cents debit_calc - Dec.cents total).
Proof.
  intros Hv H2 H3 H4 H5 H6 debit_calc diff.
  apply build_voucher_ok in Hv
    as (ymd & ? & ? & ? & ? & ? & rate & _ & E2 & E3 & E4 & E5 & E6 & _ & ->).
  rewrite H2 in E2. rewrite H3 in E3. rewrite H4 in E4. rewrite H5 in E5.
  rewrite H6 in E6.
  injection E2 as <-. injection E3 as <-. injection E4 as <-.
  injection E5 as <-. injection E6 as <-.
  rewrite round_off_line_voucher_of. fold debit_calc.
  unfold round_off_lines. fold diff. unfold Dec.eqb.
  pose proof (DecFacts.cmp_sub_zero total debit_calc) as Hcmp. fold diff in Hcmp.
  pose proof (DecFacts.cmp_antisym debit_calc total) as Hanti.
  unfold Dec.gtb. rewrite Hcmp.
  destruct (Dec.cmp debit_calc total) eqn:Hc; simpl in *.
  - split; [split; [intros [? [=]]|congruence]|intros l [=]].
  - split; [split; [congruence|eauto]|]. intros l [= <-]. simpl.
    rewrite Hanti. repeat split; try congruence.
    + apply DecFacts.cents_neg, DecFacts.sub_bound.
    + intros He Hs. apply DecFacts.r2_ok in H6 as (Ev & _ & _ & Bv).
      rewrite DecFacts.cents_neg by apply DecFacts.sub_bound. unfold diff.
      destruct (DecFacts.sub_exact total debit_calc) as (_ & -> & _);
        try assumption; [apply DecFacts.add_bound|lia].
  - split; [split; [congruence|eauto]|]. intros l [= <-]. simpl.
    rewrite Hanti. repeat split; try congruence.
    + apply DecFacts.cents_neg, DecFacts.sub_bound.
    + intros He Hs. apply DecFacts.r2_ok in H6 as (Ev & _ & _ & Bv).
      rewrite DecFacts.cents_neg by apply DecFacts.sub_bound. unfold diff.
      destruct (DecFacts.sub_exact total debit_calc) as (_ & -> & _);
        try assumption; [apply DecFacts.add_bound|lia].
Qed.

(** C9, witness: the invoice of the counterexample; its Round Off entry
    carries debit_calc - total = -0.01. *)
Lemma C9_round_off_entry_witness :
  exists l,
    round_off_line
      (voucher_of interstate_invoice (2024, 1, 15) (Dec.mk false 100000 (-2))
         (Dec.mk false 18000 (-2)) (Dec.mk false 0 (-2))
         (Dec.mk false 0 (-2)) (Dec.mk false 118001 (-2)) 18) = Some l
    /\ AMOUNT l = Plain (Dec.mk true 1 (-2))
    /\ ISDEEMEDPOSITIVE l = "No".
Proof.
  eexists. split; [vm_compute; reflexivity|].
  destruct (C9_round_off_entry interstate_invoice
              (voucher_of interstate_invoice (2024, 1, 15)
                 (Dec.mk false 100000 (-2)) (Dec.mk false 18000 (-2))
                 (Dec.mk false 0 (-2)) (Dec.mk false 0 (-2))
                 (Dec.mk false 118001 (-2)) 18)
              (Dec.mk false 100000 (-2)) (Dec.mk false 18000 (-2))
              (Dec.mk false 0 (-2)) (Dec.mk false 0 (-2))
              (Dec.mk false 118001 (-2)))
    as [_ H]; try (vm_compute; reflexivity).
  edestruct H as (_ & Ha & _ & _ & _ & Hno & _); [vm_compute; reflexivity|].
  split; [exact Ha|]. apply Hno. vm_compute. reflexivity.
Defined.

(** ** C10: an invoice without tax *)

(** [float] of a zero is a zero, which is not positive. *)
Lemma py_float_zero (d : Dec.t) :
  Dec.is_zero d = true ->
  exists z, py_float d = Ok z /\ float_pos z = false.
Proof.
  intros H. unfold py_float. rewrite H.
  destruct (Dec.sign d); eexists; split; reflexivity.
Qed.

(** C10.  For every invoice whose igst, cgst and sgst amounts are zero,
    whose date parses and whose taxable value and total round, the voucher
    is produced with rate 0: after the party entry come a purchase debit on
    Local Purchase 0% and two tax debits on Input CGST 0% and Input SGST 0%
    whose amounts are a minus sign before a zero with two places (-0.00 for
    a zero written without a sign, value zero in any case), then the Round
    Off entry if the total differs from the taxable value.  The planner's
    loop body creates nothing for such an invoice but the supplier's
    ledger. *)
Theorem C10_invoice_without_tax (i : Invoice) (ymd : Z * Z * Z)
    (taxable total : Dec.t) :
  Dec.is_zero (igst_amount i) = true ->
  Dec.is_zero (cgst_amount i) = true ->
  Dec.is_zero (sgst_amount i) = true ->
  strptime_dmy (date i) = Ok ymd ->
  r2 (taxable_value i) = Ok taxable ->
  r2 (total_invoice_value i) = Ok total ->
  let igst := Dec.mk (Dec.sign (igst_amount i)) 0 (-2) in
  let cgst := Dec.mk (Dec.sign (cgst_amount i)) 0 (-2) in
  let sgst := Dec.mk (Dec.sign (sgst_amount i)) 0 (-2) in
  let v := voucher_of i ymd taxable igst cgst sgst total 0 in
  build_voucher i = Ok v
  /\ tail (lines v)
     = [ debit_line "Local Purchase 0%" taxable;
         debit_line "Input CGST 0%" cgst;
         debit_line "Input SGST 0%" sgst ]
       ++ round_off_lines
            (Dec.add taxable (Dec.add (Dec.add igst cgst) sgst)) total
  /\ amount_cents (Minus cgst) = 0
  /\ amount_cents (Minus sgst) = 0
  /\ (Dec.sign (cgst_amount i) = false -> amount_text (Minus cgst) = "-0.00")
  /\ (Dec.sign (sgst_amount i) = false -> amount_text (Minus sgst) = "-0.00")
  /\ forall st,
       plan_invoice i st
       = (fun _ => create_ledger_elem (supplier_name i) "Sundry Creditors"
                     false None st) <$> py_float (taxable_value i).
Proof.
  intros Zi Zc Zs Hd H2 H6 igst cgst sgst v.
  assert (Hr : voucher_rate (Dec.add (Dec.add igst cgst) sgst) taxable = Ok 0)
    by (apply voucher_rate_no_tax; reflexivity).
  split; [|split; [|split; [|split; [|split; [|split]]]]].
  - apply build_voucher_ok.
    exists ymd, taxable, igst, cgst, sgst, total, 0.
    repeat split; try assumption; apply r2_zero; assumption.
  - assert (G : Dec.gtb igst (Dec.of_Z 0) = false)
      by (rewrite DecFacts.gtb_zero; apply andb_false_r).
    unfold v, voucher_of, tax_lines. rewrite G. reflexivity.
  - unfold cgst. destruct (Dec.sign (cgst_amount i)); reflexivity.
  - unfold sgst. destruct (Dec.sign (sgst_amount i)); reflexivity.
  - unfold cgst. intros ->. reflexivity.
  - unfold sgst. intros ->. reflexivity.
  - intros st. unfold plan_invoice.
    destruct (py_float_zero _ Zi) as (zi & -> & Pi).
    destruct (py_float_zero _ Zc) as (zc & -> & Pc).
    destruct (py_float_zero _ Zs) as (zs & -> & Ps).
    destruct (py_float (taxable_value i)) as [t|e]; [|reflexivity]. simpl.
    unfold plan_interstate, plan_local. rewrite Pi, Pc, Ps. reflexivity.
Qed.

(** C10, witness: the invoice 1000 without tax. *)
Lemma C10_invoice_without_tax_witness :
  (fun v => (fun l => (LEDGERNAME l, amount_text (AMOUNT l))) <$> lines v)
    <$> build_voucher exempt_invoice
  = Ok [ ("Acme Traders", "1000.00"); ("Local Purchase 0%", "-1000.00");
         ("Input CGST 0%", "-0.00"); ("Input SGST 0%", "-0.00") ]
  /\ (fun st => NAME <$> req_data st) <$> plan [exempt_invoice]
     = Ok [Some "Round Off"; Some "Acme Traders"].
Proof.
  destruct (C10_invoice_without_tax exempt_invoice (2024, 1, 15)
              (Dec.mk false 100000 (-2)) (Dec.mk false 100000 (-2)))
    as (Hv & _); try (vm_compute; reflexivity).
  rewrite Hv. split; vm_compute; reflexivity.
Defined.

(** * Further properties of the code *)

(** ** The extractor *)

(** The records of [process_gstr2b_logic]: one per raw invoice of the
    filing, each with the filing's return period (N/A when the filing has
    none) and with the trade name and GSTIN of a supplier group of the
    filing; a filing without [data], [docdata] or [b2b] has no supplier
    group and yields no record. *)
Theorem extractor_records (raw_data : RawFiling) :
  length (process_gstr2b_logic raw_data)
  = sum_list
      ((fun s => length (default [] (inv s))) <$> filing_suppliers raw_data)
  /\ Forall
       (fun i =>
          return_period i = filing_return_period raw_data
          /\ exists s r,
               s ∈ filing_suppliers raw_data /\ r ∈ default [] (inv s)
               /\ i = extract_invoice (filing_return_period raw_data) s r)
       (process_gstr2b_logic raw_data)
  /\ (data raw_data = None -> process_gstr2b_logic raw_data = []).
Proof.
  assert (E : process_gstr2b_logic raw_data
              = concat
                  (map (fun s =>
                          map (extract_invoice (filing_return_period raw_data) s)
                            (default [] (inv s)))
                     (filing_suppliers raw_data))).
  { unfold process_gstr2b_logic. cbv zeta. rewrite extract_outer. reflexivity. }
  split; [|split].
  - rewrite E. generalize (filing_suppliers raw_data) as l.
    induction l as [|s l IH]; simpl; [reflexivity|].
    rewrite length_app, length_map, IH. reflexivity.
  - rewrite E. apply Forall_forall. intros i Hi.
    apply list_elem_of_In, in_concat in Hi as (rs & Hrs & Hi).
    apply in_map_iff in Hrs as (s & <- & Hs).
    apply in_map_iff in Hi as (r & <- & Hr).
    split; [reflexivity|]. exists s, r.
    repeat split; try apply list_elem_of_In; assumption.
  - intros H. unfold process_gstr2b_logic. rewrite H. reflexivity.
Qed.

(** ** The ledger planner *)

Lemma foldl_run_call_first (cs : list Call) : forall st,
  req_data (foldl run_call st cs)
  = req_data st ++ (ledger_of <$> first_by_name (created st) cs).
Proof.
  induction cs as [|c cs IH]; intros st; simpl.
  - rewrite app_nil_r. reflexivity.
  - rewrite IH. unfold run_call, create_ledger_elem.
    destruct (decide _) as [Hin|Hin]; [reflexivity|]. simpl.
    rewrite <- app_assoc. reflexivity.
Qed.

(** First registration wins: the ledgers of a run are, in order, those of
    the Round Off call and of the calls of the loop, each taken the first
    time its name is asked for; a later call for the same name, whatever its
    group or tax head, leaves no trace. *)
Theorem planner_first_registration_wins (invoices : list Invoice)
    (cs : list Call) (st : Masters) :
  all_calls invoices = Ok cs ->
  plan invoices = Ok st ->
  req_data st = ledger_of <$> first_by_name ∅ (round_off_call :: cs).
Proof.
  intros Hcs Hst. unfold plan in Hst.
  rewrite plan_invoices_calls, Hcs in Hst. injection Hst as <-.
  rewrite foldl_run_call_first. reflexivity.
Qed.

(** A supplier called Round Off gets no ledger of its own. *)
Lemma planner_first_registration_wins_witness :
  let i := {| supplier_name := Some "Round Off"; supplier_gstin := None;
              date := Some "15-01-2024"; invoice_number := Some "INV-001";
              return_period := "012024";
              taxable_value := Dec.of_Z 1000; igst_amount := Dec.of_Z 0;
              cgst_amount := Dec.of_Z 0; sgst_amount := Dec.of_Z 0;
              total_invoice_value := Dec.of_Z 1000 |} in
  req_data <$> plan [i]
  = Ok [ {| NAME := Some "Round Off"; PARENT := "Indirect Expenses";
            ISBILLWISEON := "No"; TAXTYPE := None; GSTDUTYHEAD := None |} ].
Proof.
  cbv zeta.
  match goal with |- req_data <$> plan ?l = _ =>
    destruct (plan l) as [st|e] eqn:Hst; [|vm_compute in Hst; discriminate];
    simpl; f_equal;
    rewrite (planner_first_registration_wins l
               [ {| call_name := Some "Round Off";
                    call_group := "Sundry Creditors";
                    call_is_gst := false; call_gst_head := None |} ] st)
  end.
  - vm_compute. reflexivity.
  - vm_compute. reflexivity.
  - exact Hst.
Defined.

Lemma run_call_prefix (st : Masters) (c : Call) :
  req_data st `prefix_of` req_data (run_call st c).
Proof.
  unfold run_call, create_ledger_elem.
  destruct (decide _); simpl; [reflexivity|]. apply prefix_app_r. reflexivity.
Qed.

Lemma foldl_run_call_prefix (cs : list Call) : forall st,
  req_data st `prefix_of` req_data (foldl run_call st cs).
Proof.
  induction cs as [|c cs IH]; intros st; simpl; [reflexivity|].
  etrans; [apply run_call_prefix|apply IH].
Qed.

(** Planning more invoices only appends: when the run over
    invoices ++ more succeeds, so does the run over invoices, and its
    ledgers are the first ledgers of the longer run, Round Off being the
    very first. *)
Theorem planner_appends (invoices more : list Invoice) (st : Masters) :
  plan (invoices ++ more) = Ok st ->
  exists st0,
    plan invoices = Ok st0
    /\ req_data st0 `prefix_of` req_data st
    /\ head (req_data st)
       = Some {| NAME := Some "Round Off"; PARENT := "Indirect Expenses";
                 ISBILLWISEON := "No"; TAXTYPE := None;
                 GSTDUTYHEAD := None |}.
Proof.
  unfold plan. rewrite !plan_invoices_calls, all_calls_app.
  intros H. apply bind_ok in H as (cs & H & [= <-]).
  apply bind_ok in H as (a & Ha & H). apply bind_ok in H as (b & Hb & [= <-]).
  rewrite Ha. eexists. split; [reflexivity|]. split.
  - rewrite foldl_app. apply foldl_run_call_prefix.
  - rewrite foldl_run_call_first. reflexivity.
Qed.

Lemma planner_appends_witness :
  exists st0 st,
    plan [interstate_invoice] = Ok st0
    /\ plan ([interstate_invoice] ++ [mixed_invoice]) = Ok st
    /\ req_data st0 `prefix_of` req_data st.
Proof.
  destruct (plan ([interstate_invoice] ++ [mixed_invoice])) as [st|e] eqn:H;
    [|vm_compute in H; discriminate].
  destruct (planner_appends _ _ _ H) as (st0 & H0 & Hp & _).
  exists st0, st. repeat split; assumption.
Defined.

Lemma all_calls_perm (xs ys : list Invoice) :
  xs ≡ₚ ys -> forall cs, all_calls xs = Ok cs ->
  exists cs', all_calls ys = Ok cs' /\ cs ≡ₚ cs'.
Proof.
  induction 1 as [|i xs ys _ IH|i j xs|xs ys zs _ IH1 _ IH2]; intros cs H.
  - exists cs. split; [exact H|reflexivity].
  - simpl in *. apply bind_ok in H as (a & Ha & H).
    apply bind_ok in H as (b & Hb & [= <-]).
    destruct (IH _ Hb) as (b' & -> & Hp). rewrite Ha. simpl.
    eexists. split; [reflexivity|]. rewrite Hp. reflexivity.
  - simpl in *. apply bind_ok in H as (a & Ha & H).
    apply bind_ok in H as (b & H & [= <-]).
    apply bind_ok in H as (c & Hc & H). apply bind_ok in H as (d & Hd & [= <-]).
    rewrite Hc, Ha, Hd. simpl. eexists. split; [reflexivity|].
    rewrite !app_assoc. apply Permutation_app_tail, Permutation_app_comm.
  - destruct (IH1 _ H) as (cs1 & H1 & P1).
    destruct (IH2 _ H1) as (cs2 & H2 & P2).
    exists cs2. split; [exact H2|]. etrans; eassumption.
Qed.

(** The order of the invoices decides the order of the ledgers, not which
    names get one: a run over a rearrangement of the invoices succeeds when
    the run over the invoices does, and creates ledgers for the same names,
    as many of them. *)
Theorem planner_names_order_independent (invoices rearranged : list Invoice)
    (st : Masters) :
  invoices ≡ₚ rearranged ->
  plan invoices = Ok st ->
  exists st',
    plan rearranged = Ok st'
    /\ created st' = created st
    /\ NAME <$> req_data st' ≡ₚ NAME <$> req_data st.
Proof.
  intros Hp Hst. pose proof (plan_inv _ _ Hst) as [Hc Hn].
  unfold plan in *. rewrite plan_invoices_calls in *.
  apply bind_ok in Hst as (cs & Hcs & [= <-]).
  destruct (all_calls_perm _ _ Hp _ Hcs) as (cs' & -> & Hperm). simpl.
  eexists. split; [reflexivity|].
  assert (Hcr : created (foldl run_call
                  (create_ledger_elem (Some "Round Off") "Indirect Expenses"
                     false None {| req_data := []; created := ∅ |}) cs')
                = created (foldl run_call
                  (create_ledger_elem (Some "Round Off") "Indirect Expenses"
                     false None {| req_data := []; created := ∅ |}) cs)).
  { rewrite !foldl_run_call_created. f_equal.
    apply list_to_set_perm_L. rewrite Hperm. reflexivity. }
  split; [exact Hcr|].
  match goal with |- context [foldl run_call ?s0 cs'] =>
    pose proof (foldl_run_call_inv cs' s0
                  (run_call_inv _ round_off_call masters_inv_empty)) as [Hc' Hn']
  end.
  apply NoDup_Permutation; [exact Hn'|exact Hn|]. intros n.
  rewrite <- !(elem_of_list_to_set (C := gset (option string))).
  rewrite <- Hc, <- Hc', Hcr. reflexivity.
Qed.

Lemma planner_names_order_independent_witness :
  exists st st',
    plan [interstate_invoice; mixed_invoice] = Ok st
    /\ plan [mixed_invoice; interstate_invoice] = Ok st'
    /\ created st' = created st.
Proof.
  destruct (plan [interstate_invoice; mixed_invoice]) as [st|e] eqn:H;
    [|vm_compute in H; discriminate].
  destruct (planner_names_order_independent
              [interstate_invoice; mixed_invoice]
              [mixed_invoice; interstate_invoice] st)
    as (st' & H' & Hc & _); [apply perm_swap|exact H|].
  exists st, st'. repeat split; assumption.
Defined.

Lemma ledger_calls_shape (i : Invoice) (cs : list Call) :
  ledger_calls i = Ok cs -> Forall (fun c => ledger_shape (ledger_of c)) cs.
Proof.
  unfold ledger_calls. intros H.
  apply bind_ok in H as (taxable & _ & H). apply bind_ok in H as (ig & _ & H).
  apply bind_ok in H as (cg & _ & H). apply bind_ok in H as (sg & _ & H).
  apply bind_ok in H as (a & Ha & H). apply bind_ok in H as (b & Hb & [= <-]).
  constructor; [left; repeat split|]. apply Forall_app. split.
  - unfold interstate_calls in Ha. destruct (_ && _).
    + apply bind_ok in Ha as (rate & _ & [= <-]).
      repeat constructor; unfold ledger_shape; simpl; tauto.
    + injection Ha as <-. constructor.
  - unfold local_calls in Hb. destruct (_ && _).
    + apply bind_ok in Hb as (rate & _ & [= <-]).
      repeat constructor; unfold ledger_shape; simpl; tauto.
    + injection Hb as <-. constructor.
Qed.

Lemma all_calls_shape (invoices : list Invoice) : forall cs,
  all_calls invoices = Ok cs -> Forall (fun c => ledger_shape (ledger_of c)) cs.
Proof.
  induction invoices as [|i rest IH]; intros cs H; simpl in H.
  - injection H as <-. constructor.
  - apply bind_ok in H as (a & Ha & H). apply bind_ok in H as (b & Hb & [= <-]).
    apply Forall_app. split; [eapply ledger_calls_shape; eauto|auto].
Qed.

Lemma first_by_name_sub (cs : list Call) : forall seen c,
  c ∈ first_by_name seen cs -> c ∈ cs.
Proof.
  induction cs as [|x cs IH]; intros seen c H; simpl in H; [inversion H|].
  destruct (decide _).
  - right. eapply IH, H.
  - apply elem_of_cons in H as [->|H]; [left|right; eapply IH, H].
Qed.

(** Every ledger of a successful run has one of the four shapes of
    [ledger_shape]: bill-wise tracking is on exactly under Sundry Creditors,
    and a tax type comes with a duty head and the group Duties & Taxes. *)
Theorem planner_ledgers_well_formed (invoices : list Invoice) (st : Masters) :
  plan invoices = Ok st -> Forall ledger_shape (req_data st).
Proof.
  intros Hst. unfold plan in Hst. rewrite plan_invoices_calls in Hst.
  apply bind_ok in Hst as (cs & Hcs & [= <-]).
  rewrite foldl_run_call_first. apply Forall_app. split.
  - unfold create_ledger_elem.
    destruct (decide _) as [Hin|_]; [apply elem_of_empty in Hin; destruct Hin|].
    simpl. apply Forall_singleton. right. left. simpl. tauto.
  - apply Forall_fmap, Forall_forall. intros c Hc.
    apply first_by_name_sub in Hc.
    pose proof (all_calls_shape _ _ Hcs) as Hall.
    rewrite Forall_forall in Hall. apply Hall, Hc.
Qed.

Lemma planner_ledgers_well_formed_witness :
  exists st, plan [interstate_invoice; mixed_invoice] = Ok st
    /\ length (req_data st) = 7%nat /\ Forall ledger_shape (req_data st).
Proof.
  destruct (plan [interstate_invoice; mixed_invoice]) as [st|e] eqn:H;
    [|vm_compute in H; discriminate].
  exists st. split; [reflexivity|]. split.
  - assert (E : length <$> (req_data <$> plan [interstate_invoice; mixed_invoice])
                = Ok 7%nat) by (vm_compute; reflexivity).
    rewrite H in E. injection E as E. exact E.
  - apply (planner_ledgers_well_formed _ _ H).
Defined.

Lemma all_calls_supplier (invoices : list Invoice) : forall cs i,
  all_calls invoices = Ok cs -> i ∈ invoices ->
  supplier_name i ∈ call_name <$> cs.
Proof.
  induction invoices as [|j rest IH]; intros cs i Hcs Hi; [inversion Hi|].
  simpl in Hcs. apply bind_ok in Hcs as (a & Ha & Hcs).
  apply bind_ok in Hcs as (b & Hb & [= <-]).
  rewrite fmap_app. apply elem_of_app.
  apply elem_of_cons in Hi as [->|Hi]; [left|right; eauto].
  unfold ledger_calls in Ha.
  apply bind_ok in Ha as (? & _ & Ha). apply bind_ok in Ha as (? & _ & Ha).
  apply bind_ok in Ha as (? & _ & Ha). apply bind_ok in Ha as (? & _ & Ha).
  apply bind_ok in Ha as (? & _ & Ha). apply bind_ok in Ha as (? & _ & [= <-]).
  left.
Qed.

(** A missing trade name stops the masters document: when planning
    succeeds and some invoice has no supplier name, [generate_masters_string]
    raises TypeError, and so does [process_gst], whatever the vouchers
    would have been. *)
Theorem masters_need_supplier_names (invoices : list Invoice)
    (company_name : string) (st : Masters) :
  plan invoices = Ok st ->
  Exists (fun i => supplier_name i = None) invoices ->
  generate_masters_string invoices company_name = Raise TypeError
  /\ forall raw_json,
       process_gstr2b_logic raw_json = invoices ->
       process_gst raw_json company_name = Raise TypeError.
Proof.
  intros Hst Hex.
  assert (Hm : generate_masters_string invoices company_name = Raise TypeError).
  { unfold generate_masters_string. rewrite Hst. simpl. unfold prettify. simpl.
    destruct (forallb _ _) eqn:F; [exfalso|reflexivity].
    rewrite forallb_forall in F.
    apply Exists_exists in Hex as (i & Hi & Hn).
    assert (Hin : None ∈ NAME <$> req_data st).
    { pose proof (plan_inv _ _ Hst) as [Hc _].
      apply (elem_of_list_to_set (C := gset (option string))).
      rewrite <- Hc. unfold plan in Hst. rewrite plan_invoices_calls in Hst.
      apply bind_ok in Hst as (cs & Hcs & [= <-]).
      rewrite foldl_run_call_created. apply elem_of_union_r.
      apply elem_of_list_to_set. rewrite <- Hn.
      eapply all_calls_supplier; eassumption. }
    apply list_elem_of_fmap in Hin as (l & Hl & Hlin).
    apply list_elem_of_In in Hlin. specialize (F l Hlin).
    rewrite <- Hl in F. apply bool_decide_eq_true in F. destruct F; discriminate. }
  split; [exact Hm|]. intros raw_json <-. unfold process_gst. rewrite Hm.
  reflexivity.
Qed.

Lemma masters_need_supplier_names_witness :
  is_ok (generate_vouchers_string (process_gstr2b_logic nameless_filing) "Acme")
  = true
  /\ process_gst nameless_filing "Acme" = Raise TypeError.
Proof.
  split; [vm_compute; reflexivity|].
  destruct (plan (process_gstr2b_logic nameless_filing)) as [st|e] eqn:H;
    [|vm_compute in H; discriminate].
  apply (masters_need_supplier_names _ "Acme" st H); [|reflexivity].
  apply Exists_cons_hd. reflexivity.
Defined.

(** ** The voucher builder *)

Lemma build_vouchers_raise (invoices : list Invoice) : forall acc e,
  build_vouchers invoices acc = Raise e <->
  exists good bad rest,
    invoices = good ++ bad :: rest
    /\ Forall (fun i => is_ok (build_voucher i) = true) good
    /\ build_voucher bad = Raise e.
Proof.
  induction invoices as [|i rest IH]; intros acc e; simpl.
  - split; [discriminate|]. intros (good & bad & r & H & _).
    destruct good; discriminate.
  - destruct (build_voucher i) as [v|x] eqn:Hi; simpl.
    + rewrite IH. split.
      * intros (good & bad & r & -> & Hg & Hb).
        exists (i :: good), bad, r. split; [reflexivity|].
        split; [constructor; [rewrite Hi; reflexivity|exact Hg]|exact Hb].
      * intros (good & bad & r & H & Hg & Hb). destruct good as [|g good].
        -- simpl in H. injection H as -> ->. congruence.
        -- simpl in H. injection H as -> ->. inversion Hg; subst.
           exists good, bad, r. auto.
    + split.
      * intros [= ->]. exists [], i, rest. split; [reflexivity|].
        split; [constructor|exact Hi].
      * intros (good & bad & r & H & Hg & Hb). destruct good as [|g good].
        -- simpl in H. injection H as -> ->. congruence.
        -- simpl in H. injection H as -> ->. inversion Hg as [|? ? Hgi]; subst.
           rewrite Hi in Hgi. discriminate.
Qed.

(** The builder fails exactly when some invoice cannot be turned into a
    voucher, and then with the exception of the first such invoice: the
    invoices before it are processed, the ones after it are never looked at,
    and no document is returned.  The exception is TypeError (no date),
    ValueError (a date that does not parse) or InvalidOperation (an amount
    or a rate beyond 28 digits). *)
Theorem vouchers_fail_at_first_bad_invoice (invoices : list Invoice)
    (company_name : string) (e : exn) :
  (generate_vouchers_string invoices company_name = Raise e <->
   exists good bad rest,
     invoices = good ++ bad :: rest
     /\ Forall (fun i => is_ok (build_voucher i) = true) good
     /\ build_voucher bad = Raise e)
  /\ (generate_vouchers_string invoices company_name = Raise e ->
      e = TypeError \/ e = ValueError \/ e = InvalidOperation).
Proof.
  assert (Hiff : generate_vouchers_string invoices company_name = Raise e <->
                 build_vouchers invoices [] = Raise e).
  { unfold generate_vouchers_string.
    destruct (build_vouchers invoices []); simpl; split; congruence. }
  split.
  - rewrite Hiff. apply build_vouchers_raise.
  - rewrite Hiff, build_vouchers_raise.
    intros (good & bad & rest & _ & _ & Hb).
    eapply build_voucher_raise, Hb.
Qed.

(** ** Rounding *)

(** Rounding an amount that [r2] produced changes nothing, and [r2] treats
    an amount and its negation alike: it rounds the magnitude and keeps the
    sign. *)
Theorem r2_stable_and_odd (d : Dec.t) :
  (forall x, r2 d = Ok x -> r2 x = Ok x)
  /\ r2 (Dec.copy_negate d) = Dec.copy_negate <$> r2 d.
Proof.
  split.
  - intros x Hx. apply DecFacts.r2_ok in Hx as (He & _ & _ & Hb).
    rewrite DecFacts.r2_eq.
    assert (Hn : nearest_cent x = Dec.int x).
    { unfold nearest_cent. rewrite He. simpl. lia. }
    rewrite Hn. destruct (Z.ltb_spec (Dec.int x) (10 ^ 28)); [|lia].
    rewrite <- He. f_equal. apply DecFacts.triple_int.
  - rewrite !DecFacts.r2_eq.
    change (nearest_cent (Dec.copy_negate d)) with (nearest_cent d).
    destruct (nearest_cent d <? 10 ^ 28); reflexivity.
Qed.

(** ** The endpoint *)



(** ** Dates *)

Section Dates.
Import Strptime.

Lemma decimal_range (c v : Z) : decimal c = Some v -> 0 <= v <= 9.
Proof.
  unfold decimal. destruct (List.find _ _) as [z|] eqn:F; [|discriminate].
  apply find_some in F as [_ F]. intros [= <-]. lia.
Qed.

Lemma digit_range (s r : string) (n : Z) :
  digit s = Some (n, r) -> 0 <= n <= 9.
Proof.
  unfold digit. destruct (code_point s) as [[c r']|]; [|discriminate].
  simpl. destruct (decimal c) as [v|] eqn:D; [|discriminate].
  intros [= <- _]. eapply decimal_range, D.
Qed.

Lemma digit_in_range (lo hi : Z) (a : ascii) (n : Z) :
  digit_in lo hi a = Some n -> lo <= n <= hi.
Proof.
  unfold digit_in. destruct (Z.leb_spec (48 + lo) (byte a));
    destruct (Z.leb_spec (byte a) (48 + hi)); simpl; intros [= <-]; lia.
Qed.

Lemma orelse_some {A} (x y : option A) (v : A) :
  orelse x y = Some v -> x = Some v \/ y = Some v.
Proof. destruct x; simpl; auto. Qed.

Ltac bind_some H :=
  repeat match type of H with
  | (match ?s with EmptyString => _ | String _ _ => _ end) = Some _ =>
      destruct s; [discriminate H|]
  | (if ?b then _ else _) = Some _ => destruct b; [|discriminate H]
  | (None = Some _) => discriminate H
  | (digit ?s ≫= _) = Some _ =>
      let E := fresh "E" in
      destruct (digit s) as [[? ?]|] eqn:E; simpl in H; [|discriminate H];
      apply digit_range in E
  | (digit_in ?lo ?hi ?a ≫= _) = Some _ =>
      let E := fresh "E" in
      destruct (digit_in lo hi a) eqn:E; simpl in H; [|discriminate H];
      apply digit_in_range in E
  end.

Lemma day_some {A} (k : Z -> string -> option A) (s : string) (v : A) :
  day k s = Some v -> exists d r, 1 <= d <= 31 /\ k d r = Some v.
Proof.
  unfold day. intros H.
  apply orelse_some in H as [H|H]; [|apply orelse_some in H as [H|H];
    [|apply orelse_some in H as [H|H]; [|apply orelse_some in H as [H|H]]]].
  - destruct s as [|a [|b r]]; try discriminate H. bind_some H.
    eexists _, _; split; [|exact H]; lia.
  - destruct s as [|a r]; try discriminate H. bind_some H.
    eexists _, _; split; [|exact H]; lia.
  - destruct s as [|a [|b r]]; try discriminate H. bind_some H.
    eexists _, _; split; [|exact H]; lia.
  - destruct s as [|a r]; try discriminate H. bind_some H.
    eexists _, _; split; [|exact H]; lia.
  - destruct s as [|a r]; try discriminate H.
    destruct a as [[] [] [] [] [] [] [] []]; try discriminate H.
    destruct r as [|b r]; try discriminate H. bind_some H.
    eexists _, _; split; [|exact H]; lia.
Qed.

Lemma month_some {A} (k : Z -> string -> option A) (s : string) (v : A) :
  month k s = Some v -> exists m r, 1 <= m <= 12 /\ k m r = Some v.
Proof.
  unfold month. intros H.
  apply orelse_some in H as [H|H]; [|apply orelse_some in H as [H|H]].
  - destruct s as [|a [|b r]]; try discriminate H. bind_some H.
    eexists _, _; split; [|exact H]; lia.
  - destruct s as [|a [|b r]]; try discriminate H. bind_some H.
    eexists _, _; split; [|exact H]; lia.
  - destruct s as [|a r]; try discriminate H. bind_some H.
    eexists _, _; split; [|exact H]; lia.
Qed.

Lemma year_some {A} (k : Z -> string -> option A) (s : string) (v : A) :
  year k s = Some v -> exists y r, 0 <= y <= 9999 /\ k y r = Some v.
Proof.
  unfold year. intros H. bind_some H.
  eexists _, _; split; [|exact H]; lia.
Qed.

Lemma dash_some {A} (k : Z -> string -> option A) (s : string) (v : A) :
  dash k s = Some v -> exists r, k 0 r = Some v.
Proof.
  unfold dash. intros H. destruct s as [|a r]; [discriminate H|].
  destruct a as [[] [] [] [] [] [] [] []]; try discriminate H. eauto.
Qed.

Lemma days_in_month_range (y m : Z) : 28 <= days_in_month y m <= 31.
Proof.
  unfold days_in_month.
  destruct (m =? 2); [destruct (is_leap y); lia|].
  destruct (_ || _); lia.
Qed.

(** A date the builder accepts is a date of the calendar: a year from 1 to
    9999, a month from 1 to 12, a day that this month of this year has. *)
Theorem accepted_date_is_calendar_date (s : string) (y m d : Z) :
  strptime_dmy (Some s) = Ok (y, m, d) ->
  1 <= y <= 9999 /\ 1 <= m <= 12 /\ 1 <= d <= days_in_month y m.
Proof.
  unfold strptime_dmy. destruct (parse s) as [ymd|] eqn:H; [|discriminate].
  intros [= ->]. unfold parse in H.
  apply day_some in H as (d' & r1 & Hd & H).
  apply dash_some in H as (r2 & H).
  apply month_some in H as (m' & r3 & Hm & H).
  apply dash_some in H as (r4 & H).
  apply year_some in H as (y' & r5 & Hy & H).
  destruct r5; [|discriminate H].
  destruct (Z.leb_spec 1 y'); [|discriminate H].
  destruct (Z.leb_spec d' (days_in_month y' m')); [|discriminate H].
  simpl in H. injection H as <- <- <-. lia.
Qed.

Lemma accepted_date_is_calendar_date_witness :
  strptime_dmy (Some "29-02-2024") = Ok (2024, 2, 29)
  /\ 1 <= 29 <= days_in_month 2024 2.
Proof.
  split; [reflexivity|].
  apply (accepted_date_is_calendar_date "29-02-2024" 2024 2 29). reflexivity.
Defined.

Lemma byte_digit_char (n : Z) : 0 <= n <= 9 -> byte (digit_char n) = 48 + n.
Proof.
  intros H. rewrite <- (Z2Nat.id n) by lia.
  assert (Hk : (Z.to_nat n < 10)%nat) by lia.
  destruct (Z.to_nat n) as [|[|[|[|[|[|[|[|[|[|k]]]]]]]]]];
    try reflexivity; lia.
Qed.

Lemma digit_digit_char (n : Z) (r : string) :
  0 <= n <= 9 -> digit (String (digit_char n) r) = Some (n, r).
Proof.
  intros H. rewrite <- (Z2Nat.id n) by lia.
  assert (Hk : (Z.to_nat n < 10)%nat) by lia.
  destruct (Z.to_nat n) as [|[|[|[|[|[|[|[|[|[|k]]]]]]]]]];
    try reflexivity; lia.
Qed.

Lemma digit_in_digit_char (lo hi n : Z) :
  0 <= n <= 9 ->
  digit_in lo hi (digit_char n)
  = if (lo <=? n) && (n <=? hi) then Some n else None.
Proof.
  intros H. unfold digit_in. rewrite byte_digit_char by lia.
  destruct (Z.leb_spec (48 + lo) (48 + n)); destruct (Z.leb_spec lo n);
    try lia; simpl; [|reflexivity].
  destruct (Z.leb_spec (48 + n) (48 + hi)); destruct (Z.leb_spec n hi);
    try lia; [|reflexivity]. f_equal. lia.
Qed.

Lemma two_digits_split (n : Z) :
  0 <= n <= 99 ->
  n = 10 * (n / 10) + n mod 10 /\ 0 <= n / 10 <= 9 /\ 0 <= n mod 10 <= 9.
Proof.
  intros H. pose proof (Z.div_mod n 10 ltac:(lia)).
  pose proof (Z.mod_pos_bound n 10 ltac:(lia)). lia.
Qed.

Lemma day_canonical {A} (k : Z -> string -> option A) (d : Z) (r : string)
    (v : A) :
  1 <= d <= 31 -> k d r = Some v -> day k (two_digits d r) = Some v.
Proof.
  intros Hd Hk. destruct (two_digits_split d ltac:(lia)) as (E & Hq & Hr).
  unfold day, two_digits.
  rewrite !digit_in_digit_char, digit_digit_char by lia.
  assert (Q : d / 10 = 0 \/ d / 10 = 1 \/ d / 10 = 2 \/ d / 10 = 3) by lia.
  destruct Q as [Q|[Q|[Q|Q]]]; rewrite Q in *; simpl.
  - destruct (Z.leb_spec 1 (d mod 10)); [|lia].
    destruct (Z.leb_spec (d mod 10) 9); [|lia]. simpl.
    rewrite <- E, Hk. reflexivity.
  - rewrite <- E, Hk. reflexivity.
  - rewrite <- E, Hk. reflexivity.
  - destruct (Z.leb_spec 0 (d mod 10)); [|lia].
    destruct (Z.leb_spec (d mod 10) 1); [|lia]. simpl.
    rewrite <- E, Hk. reflexivity.
Qed.

Lemma month_canonical {A} (k : Z -> string -> option A) (m : Z) (r : string)
    (v : A) :
  1 <= m <= 12 -> k m r = Some v -> month k (two_digits m r) = Some v.
Proof.
  intros Hm Hk. destruct (two_digits_split m ltac:(lia)) as (E & Hq & Hr).
  unfold month, two_digits. rewrite !digit_in_digit_char by lia.
  assert (Q : m / 10 = 0 \/ m / 10 = 1) by lia.
  destruct Q as [Q|Q]; rewrite Q in *; simpl.
  - destruct (Z.leb_spec 1 (m mod 10)); [|lia].
    destruct (Z.leb_spec (m mod 10) 9); [|lia]. simpl.
    rewrite <- E, Hk. reflexivity.
  - destruct (Z.leb_spec 0 (m mod 10)); [|lia].
    destruct (Z.leb_spec (m mod 10) 2); [|lia]. simpl.
    rewrite <- E, Hk. reflexivity.
Qed.

Lemma year_canonical {A} (k : Z -> string -> option A) (y : Z) (r : string) :
  0 <= y <= 9999 ->
  year k (two_digits (y / 100) (two_digits (y mod 100) r)) = k y r.
Proof.
  intros Hy. pose proof (Z.div_mod y 100 ltac:(lia)).
  pose proof (Z.mod_pos_bound y 100 ltac:(lia)).
  assert (0 <= y / 100 <= 99) by lia.
  destruct (two_digits_split (y mod 100) ltac:(lia)) as (E2 & ? & ?).
  destruct (two_digits_split (y / 100) ltac:(lia)) as (E1 & ? & ?).
  unfold year, two_digits. rewrite !digit_digit_char by lia. simpl.
  rewrite !digit_digit_char by lia. simpl.
  rewrite !digit_digit_char by lia. simpl.
  rewrite !digit_digit_char by lia. simpl. f_equal. lia.
Qed.

(** The zero-padded spelling DD-MM-YYYY of any date of the calendar, years
    1 to 9999, is accepted and read as that date. *)
Theorem canonical_date_is_accepted (y m d : Z) :
  1 <= y <= 9999 -> 1 <= m <= 12 -> 1 <= d <= days_in_month y m ->
  spec_DD_MM_YYYY (canonical_dmy y m d) = true
  /\ strptime_dmy (Some (canonical_dmy y m d)) = Ok (y, m, d).
Proof.
  intros Hy Hm Hd. pose proof (days_in_month_range y m). split.
  - assert (Hdig : forall n, 0 <= n <= 9 -> ascii_digit (digit_char n) = true).
    { intros n Hn. unfold ascii_digit. rewrite byte_digit_char by lia.
      destruct (Z.leb_spec 48 (48 + n)); [|lia].
      destruct (Z.leb_spec (48 + n) 57); [reflexivity|lia]. }
    pose proof (Z.div_mod y 100 ltac:(lia)).
    pose proof (Z.mod_pos_bound y 100 ltac:(lia)).
    destruct (two_digits_split (y mod 100) ltac:(lia)) as (_ & ? & ?).
    destruct (two_digits_split (y / 100) ltac:(lia)) as (_ & ? & ?).
    destruct (two_digits_split d ltac:(lia)) as (_ & ? & ?).
    destruct (two_digits_split m ltac:(lia)) as (_ & ? & ?).
    unfold spec_DD_MM_YYYY, canonical_dmy, two_digits.
    cbn [list_ascii_of_string forallb]. rewrite !Hdig by lia. reflexivity.
  - assert (H' : parse (canonical_dmy y m d) = Some (y, m, d)).
    { unfold parse, canonical_dmy.
      apply day_canonical; [lia|]. unfold dash at 1.
      apply month_canonical; [lia|]. unfold dash at 1.
      rewrite year_canonical by lia.
      destruct (Z.leb_spec 1 y); [|lia].
      destruct (Z.leb_spec d (days_in_month y m)); [|lia]. reflexivity. }
    unfold strptime_dmy. rewrite H'. reflexivity.
Qed.

Lemma canonical_date_is_accepted_witness :
  canonical_dmy 2024 2 29 = "29-02-2024"
  /\ strptime_dmy (Some (canonical_dmy 2024 2 29)) = Ok (2024, 2, 29).
Proof.
  split; [reflexivity|].
  apply (canonical_date_is_accepted 2024 2 29); vm_compute; split; discriminate.
Defined.

End Dates.

(** ** The rate of the builder *)

Section Rate.
Import Dec DecFacts.

Lemma div_half_even_le (c p q : Z) :
  0 <= c -> 0 < p -> c <= q * p -> div_half_even c p <= q.
Proof.
  intros Hc Hp Hq. pose proof (Z.div_mod c p ltac:(lia)) as E.
  pose proof (Z.mod_pos_bound c p Hp) as Hr.
  pose proof (div_half_even_bounds c p Hc Hp) as Hb.
  destruct (Z_lt_le_dec (c / p) q) as [Hlt|Hge]; [lia|].
  assert (c / p = q /\ c mod p = 0) as [Hq' Hr'] by nia.
  unfold div_half_even. rewrite Hr'.
  destruct (Z.gtb_spec (2 * 0) p); [lia|].
  destruct (Z.eqb_spec (2 * 0) p); [lia|]. simpl. lia.
Qed.

Lemma fix_bounded (K : Z) (d : t) : bounded K d -> bounded K (fix_ d).
Proof.
  unfold bounded, fix_, prec. intros [Hm Hd].
  pose proof (int_nonneg d) as H0.
  destruct (Z.leb_spec (ndigits (int d)) 28) as [|Hn]; [auto|].
  assert (Hpos : 0 < int d).
  { destruct (Z.eq_dec (int d) 0) as [E|]; [|lia].
    rewrite E, ndigits_zero in Hn. lia. }
  destruct (ndigits_spec (int d) Hpos) as [[Hlo _] _].
  set (n := ndigits (int d)) in *. set (m := K - exp d) in *.
  assert (Hnm : n - 1 <= m).
  { destruct (Z_le_gt_dec (n - 1) m) as [|Hgt]; [assumption|exfalso].
    assert (10 ^ (m + 1) <= 10 ^ (n - 1)) by (apply Z.pow_le_mono_r; lia).
    rewrite Z.pow_add_r in H by lia. pose proof (pow10_pos m Hm). lia. }
  set (k := n - 28) in *.
  assert (Hk : 0 < 10 ^ k) by (apply pow10_pos; lia).
  assert (Hc : div_half_even (int d) (10 ^ k) <= 10 ^ (m - k)).
  { apply div_half_even_le; [lia|lia|].
    rewrite <- Z.pow_add_r by lia. replace (m - k + k) with m by lia. lia. }
  pose proof (div_half_even_bounds (int d) (10 ^ k) H0 Hk) as Hb.
  assert (Hc0 : 0 <= div_half_even (int d) (10 ^ k)).
  { pose proof (Z.div_pos (int d) (10 ^ k) H0 Hk). lia. }
  destruct (Z.gtb_spec (ndigits (div_half_even (int d) (10 ^ k))) 28).
  - simpl. rewrite int_triple by (apply Z.div_pos; lia).
    replace (K - (exp d + k + 1)) with (m - k - 1) by lia.
    split; [lia|]. apply Z.div_le_upper_bound; [lia|].
    rewrite <- (Z.pow_succ_r 10 (m - k - 1)) by lia.
    replace (Z.succ (m - k - 1)) with (m - k) by lia. lia.
  - simpl. rewrite int_triple by lia.
    replace (K - (exp d + k)) with (m - k) by lia. split; lia.
Qed.

Lemma mul_bounded (K1 K2 : Z) (a b : t) :
  bounded K1 a -> bounded K2 b -> bounded (K1 + K2) (mul a b).
Proof.
  intros [Ha1 Ha2] [Hb1 Hb2]. unfold mul.
  pose proof (int_nonneg a). pose proof (int_nonneg b).
  assert (E : K1 + K2 - (exp a + exp b) = (K1 - exp a) + (K2 - exp b)) by lia.
  destruct (_ || _); apply fix_bounded; unfold bounded; simpl;
    rewrite int_triple, E by nia.
  - split; [lia|]. apply Z.lt_le_incl, pow10_pos. lia.
  - split; [lia|]. rewrite Z.pow_add_r by lia. nia.
Qed.

Lemma strip_zeros_spec (fuel : nat) : forall c e,
  0 <= c ->
  0 <= (strip_zeros fuel c e).1
  /\ e <= (strip_zeros fuel c e).2 <= e + Z.of_nat fuel
  /\ c = (strip_zeros fuel c e).1 * 10 ^ ((strip_zeros fuel c e).2 - e)
  /\ ((strip_zeros fuel c e).2 = e + Z.of_nat fuel
      \/ (strip_zeros fuel c e).1 mod 10 <> 0).
Proof.
  induction fuel as [|f IH]; intros c e Hc.
  - simpl. rewrite Z.sub_diag. simpl. repeat split; lia.
  - cbn [strip_zeros]. destruct (Z.eqb_spec (c mod 10) 0) as [Hz|Hz].
    + pose proof (Z.div_mod c 10 ltac:(lia)) as E.
      destruct (IH (c / 10) (e + 1) ltac:(apply Z.div_pos; lia))
        as (H1 & H2 & H3 & H4).
      set (r := strip_zeros f (c / 10) (e + 1)) in *.
      repeat split; try lia.
      replace (r.2 - e) with (Z.succ (r.2 - (e + 1))) by lia.
      rewrite Z.pow_succ_r by lia. nia.
    + simpl. rewrite Z.sub_diag. simpl. repeat split; try lia.
Qed.

Lemma ndigits_pos (c : Z) : 0 <= c -> 1 <= ndigits c.
Proof.
  intros H. destruct (Z.eq_dec c 0) as [->|]; [rewrite ndigits_zero; lia|].
  apply ndigits_spec. lia.
Qed.

(** The quotient of two amounts at the same exponent is no larger in
    magnitude than the coefficient of the dividend. *)
Lemma div_bounded (M : Z) (a b : t) :
  exp a = exp b -> is_zero b = false -> int a < 10 ^ 28 ->
  0 <= M -> int a <= 10 ^ M ->
  exists q, div a b = Ok q /\ bounded M q
    /\ sign q = xorb (sign a) (sign b).
Proof.
  intros He Hb Ha28 HM Ha. unfold div. rewrite Hb.
  pose proof (int_nonneg a) as Ha0. pose proof (int_nonneg b) as Hb0.
  unfold is_zero in *. apply Z.eqb_neq in Hb.
  destruct (Z.eqb_spec (int a) 0) as [Hz|Hz].
  - eexists. split; [reflexivity|]. split; [|apply fix_sign].
    apply fix_bounded. unfold bounded. simpl. rewrite int_triple by lia.
    rewrite He, Z.sub_diag, Z.sub_0_r. split; [lia|].
    apply Z.lt_le_incl, pow10_pos. lia.
  - unfold prec.
    assert (Hna : ndigits (int a) <= 28) by (apply ndigits_le; lia).
    pose proof (ndigits_pos (int b) Hb0) as Hnb.
    pose proof (ndigits_pos (int a) Ha0) as Hna1.
    set (shift := ndigits (int b) - ndigits (int a) + 28 + 1) in *.
    assert (Hs : 2 <= shift) by (unfold shift; lia).
    destruct (Z.leb_spec 0 shift); [|lia].
    rewrite He, Z.sub_diag. cbn [Z.sub Z.opp Z.add].
    replace (0 - shift) with (- shift) by lia.
    replace (0 - - shift) with shift by lia.
    set (num := int a * 10 ^ shift). set (den := int b).
    assert (Hp : 0 < 10 ^ shift) by (apply pow10_pos; lia).
    assert (Hnum : 0 < num) by (unfold num; nia).
    assert (Hnum' : num <= 10 ^ (M + shift)).
    { unfold num. rewrite Z.pow_add_r by lia. nia. }
    assert (Hden : 0 < den) by (unfold den; lia).
    pose proof (Z.div_mod num den ltac:(lia)) as E.
    pose proof (Z.mod_pos_bound num den Hden) as Hr.
    assert (Hq0 : 0 <= num / den) by (apply Z.div_pos; lia).
    assert (Hq : num / den <= num) by (apply Z.div_le_upper_bound; nia).
    destruct (Z.eqb_spec (num mod den) 0) as [Hex|Hin].
    + destruct (strip_zeros_spec (Z.to_nat shift) (num / den) (- shift) Hq0)
        as (H1 & H2 & H3 & _).
      destruct (strip_zeros (Z.to_nat shift) (num / den) (- shift))
        as [c e'] eqn:Hst. simpl in H1, H2, H3.
      eexists. split; [reflexivity|]. split; [|apply fix_sign].
      apply fix_bounded. unfold bounded. simpl. rewrite int_triple by lia.
      rewrite Z2Nat.id in H2 by lia. split; [lia|].
      assert (Hpe : 0 < 10 ^ (e' - - shift)) by (apply pow10_pos; lia).
      assert (c * 10 ^ (e' - - shift) <= 10 ^ (M - e') * 10 ^ (e' - - shift)).
      { rewrite <- Z.pow_add_r by lia.
        replace (M - e' + (e' - - shift)) with (M + shift) by lia. lia. }
      nia.
    + eexists. split; [reflexivity|]. split; [|apply fix_sign].
      apply fix_bounded. unfold bounded. simpl.
      assert (Hd2 : 2 <= den).
      { destruct (Z.eq_dec den 1) as [E1|]; [|lia].
        rewrite E1, Z.mod_1_r in Hin. lia. }
      assert (Hq1 : num / den + 1 <= num) by nia.
      replace (M - - shift) with (M + shift) by lia.
      destruct (_ =? 0); rewrite int_triple by lia; split; lia.
Qed.

Lemma quantize_bounded (d : t) :
  bounded 27 d ->
  exists q, quantize d 0 ROUND_HALF_EVEN = Ok q /\ exp q = 0.
Proof.
  intros [Hm Hd]. pose proof (int_nonneg d) as H0.
  unfold quantize. destruct (is_zero d) eqn:Hz.
  - eexists. split; [reflexivity|]. rewrite fix_zero. reflexivity.
  - unfold is_zero in Hz. apply Z.eqb_neq in Hz.
    assert (Hlt : int d < 10 ^ (28 - exp d)).
    { replace (28 - exp d) with (Z.succ (27 - exp d)) by lia.
      rewrite Z.pow_succ_r by lia. pose proof (pow10_pos (27 - exp d) Hm). lia. }
    assert (Hn : ndigits (int d) <= 28 - exp d) by (apply ndigits_le; lia).
    unfold adjusted, prec.
    destruct (Z.gtb_spec (exp d + ndigits (int d) - 1 - 0 + 1) 28); [lia|].
    assert (Hans : exists c, rescale d 0 ROUND_HALF_EVEN = triple (sign d) c 0
                             /\ 0 <= c <= 10 ^ 27).
    { unfold rescale, is_zero. destruct (Z.eqb_spec (int d) 0); [lia|].
      destruct (Z.leb_spec 0 (exp d)) as [He|He].
      - eexists. split; [reflexivity|]. rewrite Z.sub_0_r.
        pose proof (pow10_pos (exp d) He). split; [nia|].
        assert (E27 : 10 ^ 27 = 10 ^ (27 - exp d) * 10 ^ exp d).
        { rewrite <- Z.pow_add_r by lia. f_equal. lia. }
        rewrite E27. nia.
      - eexists. split; [reflexivity|]. simpl round_div.
        assert (Hp : 0 < 10 ^ (0 - exp d)) by (apply pow10_pos; lia).
        split.
        + pose proof (div_half_even_bounds (int d) _ H0 Hp).
          pose proof (Z.div_pos (int d) _ H0 Hp). lia.
        + apply div_half_even_le; [lia|lia|].
          rewrite <- Z.pow_add_r by lia.
          replace (27 + (0 - exp d)) with (27 - exp d) by lia. lia. }
    destruct Hans as (c & -> & Hc).
    rewrite int_triple, ndigits_gtb by lia.
    destruct (Z.ltb_spec c (10 ^ 28)); [|lia]. simpl.
    eexists. split; [reflexivity|].
    rewrite fix_small by (rewrite int_triple; lia). reflexivity.
Qed.

Lemma voucher_rate_ok (tax_total taxable : t) :
  exp tax_total = exp taxable -> int tax_total <= 10 ^ 25 ->
  exists rate, voucher_rate tax_total taxable = Ok rate.
Proof.
  intros He Hb. unfold voucher_rate. rewrite eqb_zero.
  destruct (is_zero taxable) eqn:Hz; simpl; [eauto|].
  destruct (div_bounded 25 tax_total taxable He Hz ltac:(lia) ltac:(lia) Hb)
    as (q & -> & Hq & _).
  rewrite bind_Ok.
  assert (H100 : bounded 2 (of_Z 100)) by (split; vm_compute; discriminate).
  pose proof (mul_bounded 25 2 q (of_Z 100) Hq H100) as Hm.
  destruct (quantize_bounded _ Hm) as (r & -> & _). rewrite bind_Ok. eauto.
Qed.

Lemma r2_moderate (d : t) (B : Z) :
  nearest_cent d < B -> B <= 10 ^ 28 ->
  exists x, r2 d = Ok x /\ exp x = -2 /\ int x < B /\ Z.abs (cents x) < B.
Proof.
  intros Hd HB. rewrite r2_eq. pose proof (nearest_cent_nonneg d).
  destruct (Z.ltb_spec (nearest_cent d) (10 ^ 28)); [|lia].
  eexists. split; [reflexivity|]. split; [reflexivity|].
  rewrite cents_triple, int_triple by lia. destruct (sign d); lia.
Qed.

Lemma build_voucher_moderate (i : Invoice) :
  moderate i -> exists v, build_voucher i = Ok v.
Proof.
  intros (Hdate & Ht & Htot & Hi & Hc & Hs).
  destruct (strptime_dmy (date i)) as [ymd|] eqn:Hd; [|discriminate].
  destruct (r2_moderate _ _ Ht ltac:(lia)) as (taxable & Et & Hte & _).
  destruct (r2_moderate _ _ Htot ltac:(lia)) as (total & Etot & _).
  destruct (r2_moderate _ (10 ^ 24) Hi ltac:(lia)) as (igst & Ei & Hie & Hib & Hia).
  destruct (r2_moderate _ (10 ^ 24) Hc ltac:(lia)) as (cgst & Ec & Hce & Hcb & Hca).
  destruct (r2_moderate _ (10 ^ 24) Hs ltac:(lia)) as (sgst & Es & Hse & Hsb & Hsa).
  destruct (add_exact igst cgst Hie Hce ltac:(lia) ltac:(lia) ltac:(lia))
    as (He1 & Hc1 & Hi1).
  destruct (add_exact (add igst cgst) sgst He1 Hse ltac:(lia) ltac:(lia)
              ltac:(lia)) as (He2 & Hc2 & Hi2).
  destruct (voucher_rate_ok (add (add igst cgst) sgst) taxable
              ltac:(congruence) ltac:(lia)) as (rate & Hr).
  eexists. apply build_voucher_ok.
  exists ymd, taxable, igst, cgst, sgst, total, rate. auto 10.
Qed.

(** The builder returns a document, with one voucher per invoice, whenever
    every invoice is moderate: its date parses, its taxable value and total
    fit 28 digits once rounded, and each of its taxes is below 10^22
    currency units.  No taxable value, however small against the tax, makes
    the rate computation fail within these bounds. *)
Theorem builder_succeeds_on_moderate_invoices (invoices : list Invoice)
    (company_name : string) :
  Forall moderate invoices ->
  exists doc,
    generate_vouchers_string invoices company_name = Ok doc
    /\ vouchers_company doc = company_name
    /\ length (vouchers doc) = length invoices.
Proof.
  intros Hall.
  assert (Hvs : exists vs,
             Forall2 (fun i v => build_voucher i = Ok v) invoices vs).
  { induction Hall as [|i rest Hi _ (vs & IH)]; [exists []; constructor|].
    destruct (build_voucher_moderate i Hi) as (v & Hv).
    exists (v :: vs). constructor; assumption. }
  destruct Hvs as (vs & Hvs).
  exists {| vouchers_company := company_name; vouchers := vs |}.
  split; [apply generate_vouchers_string_ok; split; [reflexivity|exact Hvs]|].
  split; [reflexivity|]. simpl. symmetry. eapply Forall2_length, Hvs.
Qed.

Lemma builder_succeeds_on_moderate_invoices_witness :
  exists doc,
    generate_vouchers_string [interstate_invoice; exempt_invoice] "Acme"
    = Ok doc
    /\ length (vouchers doc) = 2%nat.
Proof.
  destruct (builder_succeeds_on_moderate_invoices
              [interstate_invoice; exempt_invoice] "Acme")
    as (doc & H & _ & Hl).
  - repeat constructor; vm_compute; reflexivity.
  - exists doc. split; [exact H|exact Hl].
Defined.

(** The bounds on the taxes matter: on [steep_invoice] every amount rounds
    within 28 digits and the date parses, yet the rate needs 30. *)
Example steep_invoice_fails :
  is_ok (r2 (igst_amount steep_invoice)) = true
  /\ build_voucher steep_invoice = Raise InvalidOperation.
Proof. split; vm_compute; reflexivity. Qed.

Lemma div_half_even_exact (q p : Z) : 0 < p -> div_half_even (q * p) p = q.
Proof.
  intros Hp. unfold div_half_even. rewrite Z.mod_mul, Z.div_mul by lia.
  destruct (Z.gtb_spec (2 * 0) p); [lia|].
  destruct (Z.eqb_spec (2 * 0) p); [lia|]. reflexivity.
Qed.

Lemma div_exact (a b : t) :
  exp a = exp b -> int a <> 0 -> int a < 10 ^ 28 -> int b <> 0 ->
  (int a * 10 ^ (ndigits (int b) - ndigits (int a) + 28 + 1)) mod int b = 0 ->
  exists c j,
    div a b = Ok (fix_ (triple (xorb (sign a) (sign b)) c (- j)))
    /\ 0 <= c
    /\ 0 <= j <= ndigits (int b) - ndigits (int a) + 28 + 1
    /\ 2 <= ndigits (int b) - ndigits (int a) + 28 + 1
    /\ int a * 10 ^ (ndigits (int b) - ndigits (int a) + 28 + 1) / int b
       = c * 10 ^ (ndigits (int b) - ndigits (int a) + 28 + 1 - j)
    /\ (j = 0 \/ c mod 10 <> 0).
Proof.
  intros He Ha Ha28 Hb Hex. unfold div, is_zero, prec.
  pose proof (int_nonneg a) as Ha0. pose proof (int_nonneg b) as Hb0.
  destruct (Z.eqb_spec (int b) 0); [lia|].
  destruct (Z.eqb_spec (int a) 0); [lia|].
  assert (Hna : ndigits (int a) <= 28) by (apply ndigits_le; lia).
  pose proof (ndigits_pos (int b) Hb0) as Hnb.
  pose proof (ndigits_pos (int a) Ha0) as Hna1.
  set (shift := ndigits (int b) - ndigits (int a) + 28 + 1) in *.
  assert (Hs : 2 <= shift) by (unfold shift; lia).
  destruct (Z.leb_spec 0 shift); [|lia].
  rewrite He, Z.sub_diag.
  replace (0 - shift) with (- shift) by lia.
  replace (0 - - shift) with shift by lia.
  rewrite Hex. cbn [Z.eqb].
  assert (Hp : 0 < 10 ^ shift) by (apply pow10_pos; lia).
  assert (Hq0 : 0 <= int a * 10 ^ shift / int b) by (apply Z.div_pos; nia).
  destruct (strip_zeros_spec (Z.to_nat shift) _ (- shift) Hq0)
    as (H1 & H2 & H3 & H4).
  destruct (strip_zeros (Z.to_nat shift) (int a * 10 ^ shift / int b) (- shift))
    as [c e'] eqn:Hst. simpl in H1, H2, H3, H4.
  rewrite Z2Nat.id in H2, H4 by lia.
  exists c, (- e'). rewrite Z.opp_involutive.
  split; [reflexivity|]. split; [exact H1|]. split; [lia|]. split; [lia|].
  split; [rewrite H3 at 1; f_equal; f_equal; lia|]. lia.
Qed.

Lemma mul_hundred (s : bool) (c e : Z) :
  0 < c -> c * 100 < 10 ^ 28 ->
  mul (triple s c e) (of_Z 100) = triple s (c * 100) e.
Proof.
  intros Hc Hb. unfold mul, is_zero. rewrite int_triple by lia.
  destruct (Z.eqb_spec c 0); [lia|]. simpl orb. cbv iota.
  change (int (of_Z 100)) with 100. change (exp (of_Z 100)) with 0.
  change (sign (of_Z 100)) with false. simpl sign. simpl exp.
  rewrite xorb_false_r, Z.add_0_r. apply fix_small.
  rewrite int_triple; lia.
Qed.

Lemma quantize_exact (s : bool) (r j : Z) :
  0 < r < 10 ^ 28 -> 0 <= j ->
  quantize (triple s (r * 10 ^ j) (- j)) 0 ROUND_HALF_EVEN = Ok (triple s r 0).
Proof.
  intros Hr Hj. pose proof (pow10_pos j Hj) as Hp.
  assert (Hc : 0 < r * 10 ^ j) by nia.
  assert (Hlt : r * 10 ^ j < 10 ^ (28 + j)) by (rewrite Z.pow_add_r by lia; nia).
  assert (Hn : ndigits (r * 10 ^ j) <= 28 + j) by (apply ndigits_le; lia).
  unfold quantize, is_zero, adjusted, prec, rescale, is_zero.
  rewrite int_triple by lia. simpl exp. simpl sign.
  destruct (Z.eqb_spec (r * 10 ^ j) 0); [lia|].
  destruct (Z.gtb_spec (- j + ndigits (r * 10 ^ j) - 1 - 0 + 1) 28); [lia|].
  assert (E : (if 0 <=? - j
               then triple s (r * 10 ^ j * 10 ^ (- j - 0)) 0
               else triple s (round_div ROUND_HALF_EVEN (r * 10 ^ j)
                                (10 ^ (0 - - j))) 0)
              = triple s r 0).
  { destruct (Z.leb_spec 0 (- j)).
    - assert (j = 0) as -> by lia. simpl. f_equal. lia.
    - simpl round_div. replace (0 - - j) with j by lia.
      rewrite div_half_even_exact by lia. reflexivity. }
  rewrite E, int_triple, ndigits_gtb by lia.
  destruct (Z.ltb_spec r (10 ^ 28)); [|lia]. simpl.
  rewrite fix_small by (rewrite int_triple; lia). reflexivity.
Qed.

(** When the tax is exactly [r] hundredths of the taxable value, the rate is
    [r] (negative when exactly one of the two is). *)
Lemma voucher_rate_exact (tax_total taxable : t) (r : Z) :
  exp tax_total = exp taxable ->
  int tax_total < 10 ^ 28 -> int taxable <> 0 ->
  100 * int tax_total = r * int taxable -> r < 10 ^ 26 ->
  voucher_rate tax_total taxable
  = Ok (if xorb (sign tax_total) (sign taxable) then - r else r).
Proof.
  intros He Ha28 Hb Hr Hr26.
  pose proof (int_nonneg tax_total) as Ha0.
  pose proof (int_nonneg taxable) as Hb0.
  destruct (Z.eq_dec (int tax_total) 0) as [Hz|Hz].
  - assert (r = 0) as -> by nia.
    rewrite voucher_rate_no_tax by (unfold is_zero; rewrite Hz; reflexivity).
    destruct (xorb _ _); reflexivity.
  - assert (Hr0 : 0 < r) by nia.
    unfold voucher_rate. rewrite eqb_zero. unfold is_zero at 1.
    destruct (Z.eqb_spec (int taxable) 0); [lia|]. simpl negb. cbv iota.
    set (shift := ndigits (int taxable) - ndigits (int tax_total) + 28 + 1).
    assert (Hna : ndigits (int tax_total) <= 28) by (apply ndigits_le; lia).
    pose proof (ndigits_pos (int taxable) Hb0) as Hnb.
    assert (Hs : 2 <= shift) by (unfold shift; lia).
    assert (Hnum : int tax_total * 10 ^ shift
                   = r * 10 ^ (shift - 2) * int taxable).
    { replace shift with (2 + (shift - 2)) at 1 by lia.
      rewrite Z.pow_add_r by lia. change (10 ^ 2) with 100. nia. }
    destruct (div_exact tax_total taxable He Hz Ha28 Hb)
      as (c & j & -> & Hc0 & Hj & _ & Hq & Hstop).
    { fold shift. rewrite Hnum. apply Z.mod_mul. lia. }
    fold shift in Hj, Hq. rewrite Hnum, Z.div_mul in Hq by lia.
    assert (Hp2 : 0 < 10 ^ (shift - 2)) by (apply pow10_pos; lia).
    assert (Hpj : 0 < 10 ^ (shift - j)) by (apply pow10_pos; lia).
    assert (Hj10 : 0 < 10 ^ j) by (apply pow10_pos; lia).
    assert (Hc100 : c * 100 = r * 10 ^ j).
    { assert (E1 : 10 ^ shift = 10 ^ (shift - j) * 10 ^ j).
      { rewrite <- Z.pow_add_r by lia. f_equal. lia. }
      assert (E2 : 10 ^ shift = 10 ^ (shift - 2) * 100).
      { change 100 with (10 ^ 2). rewrite <- Z.pow_add_r by lia. f_equal. lia. }
      assert (c * 100 * 10 ^ shift = r * 10 ^ j * 10 ^ shift).
      { rewrite E1 at 1. rewrite E2 at 1. nia. }
      pose proof (pow10_pos shift ltac:(lia)). nia. }
    assert (Hj2 : j <= 2).
    { destruct (Z_le_gt_dec j 2) as [|Hgt]; [assumption|exfalso].
      destruct Hstop as [|Hm]; [lia|]. apply Hm.
      assert (E3 : 10 ^ j = 10 ^ (j - 3) * 1000).
      { change 1000 with (10 ^ 3). rewrite <- Z.pow_add_r by lia. f_equal. lia. }
      assert (c = r * 10 ^ (j - 3) * 10) as -> by (rewrite E3 in Hc100; lia).
      apply Z.mod_mul. lia. }
    assert (Hcr : 0 < c <= r).
    { assert (10 ^ j <= 100).
      { change 100 with (10 ^ 2). apply Z.pow_le_mono_r; lia. }
      nia. }
    rewrite fix_small by (rewrite int_triple; lia).
    rewrite bind_Ok, mul_hundred by lia.
    rewrite Hc100, quantize_exact by lia. rewrite bind_Ok.
    unfold to_int. simpl. rewrite int_triple, Z.pow_0_r, Z.mul_1_r by lia.
    reflexivity.
Qed.

(** An invoice whose taxes are, after rounding, exactly [r] percent of its
    taxable value gets the ledgers of rate [r]: the purchase ledger and the
    IGST ledger carry [r], the CGST and SGST ledgers carry [r // 2]; the only
    entry that may follow is Round Off. *)
Theorem exact_percentage_names_the_ledgers (i : Invoice) (r : Z) :
  moderate i ->
  sign (taxable_value i) = false -> sign (igst_amount i) = false ->
  sign (cgst_amount i) = false -> sign (sgst_amount i) = false ->
  nearest_cent (taxable_value i) <> 0 ->
  100 * (nearest_cent (igst_amount i) + nearest_cent (cgst_amount i)
         + nearest_cent (sgst_amount i))
  = r * nearest_cent (taxable_value i) ->
  r < 10 ^ 26 ->
  exists v rest,
    build_voucher i = Ok v
    /\ LEDGERNAME <$> lines v
       = py_str (supplier_name i)
         :: (if 0 <? nearest_cent (igst_amount i)
             then [pct "Interstate Purchase" r; pct "Input IGST" r]
             else [pct "Local Purchase" r; pct "Input CGST" (r / 2);
                   pct "Input SGST" (r / 2)])
         ++ rest
    /\ (rest = [] \/ rest = ["Round Off"]).
Proof.
  intros (Hdate & Ht & Htot & Hi & Hc & Hs) St Si Sc Ss Hnz Hr Hr26.
  destruct (strptime_dmy (date i)) as [ymd|] eqn:Hd; [|discriminate].
  destruct (r2_moderate _ _ Ht ltac:(lia)) as (taxable & Et & _).
  destruct (r2_moderate _ _ Htot ltac:(lia)) as (total & Etot & _).
  destruct (r2_moderate _ (10 ^ 24) Hi ltac:(lia)) as (igst & Ei & _ & _ & Hia).
  destruct (r2_moderate _ (10 ^ 24) Hc ltac:(lia)) as (cgst & Ec & _ & _ & Hca).
  destruct (r2_moderate _ (10 ^ 24) Hs ltac:(lia)) as (sgst & Es & _ & _ & Hsa).
  destruct (r2_ok _ _ Et) as (Hte & Hts & Hti & _).
  destruct (r2_ok _ _ Ei) as (Hie & His & Hii & Hib).
  destruct (r2_ok _ _ Ec) as (Hce & Hcs & Hci & Hcb).
  destruct (r2_ok _ _ Es) as (Hse & Hss & Hsi & Hsb).
  pose proof (cents_exp2 igst Hie) as Ci. rewrite His, Si, Hii in Ci.
  pose proof (cents_exp2 cgst Hce) as Cc. rewrite Hcs, Sc, Hci in Cc.
  pose proof (cents_exp2 sgst Hse) as Cs. rewrite Hss, Ss, Hsi in Cs.
  pose proof (nearest_cent_nonneg (igst_amount i)).
  pose proof (nearest_cent_nonneg (cgst_amount i)).
  pose proof (nearest_cent_nonneg (sgst_amount i)).
  pose proof (nearest_cent_nonneg (taxable_value i)).
  destruct (add_exact igst cgst Hie Hce ltac:(lia) ltac:(lia) ltac:(lia))
    as (He1 & Hc1 & Hi1).
  destruct (add_exact (add igst cgst) sgst He1 Hse ltac:(lia) ltac:(lia)
              ltac:(lia)) as (He2 & Hc2 & Hi2).
  set (tax_total := add (add igst cgst) sgst) in *.
  assert (Hrate : voucher_rate tax_total taxable = Ok r).
  { assert (Hex : 100 * int tax_total = r * int taxable).
    { rewrite Hti, <- Hr. lia. }
    rewrite (voucher_rate_exact tax_total taxable r
               ltac:(congruence) ltac:(lia) ltac:(lia) Hex Hr26).
    rewrite Hts, St, xorb_false_r.
    destruct (sign tax_total) eqn:Hsg; [|reflexivity].
    pose proof (cents_exp2 tax_total He2) as Ct. rewrite Hsg in Ct.
    assert (r = 0) as -> by nia. reflexivity. }
  exists (voucher_of i ymd taxable igst cgst sgst total r).
  exists (LEDGERNAME <$> round_off_lines (add taxable tax_total) total).
  split; [|split].
  - apply build_voucher_ok.
    exists ymd, taxable, igst, cgst, sgst, total, r. auto 10.
  - unfold voucher_of. cbn [lines]. rewrite !fmap_app. cbn [fmap list_fmap app].
    unfold tax_lines. rewrite (gtb_cents igst Hie), Ci.
    destruct (0 <? nearest_cent (igst_amount i)); reflexivity.
  - unfold round_off_lines. destruct (negb _); [right|left]; reflexivity.
Qed.

Lemma exact_percentage_names_the_ledgers_witness :
  exists v,
    build_voucher interstate_invoice = Ok v
    /\ LEDGERNAME <$> lines v
       = ["Acme Traders"; "Interstate Purchase 18%"; "Input IGST 18%";
          "Round Off"].
Proof.
  assert (Hm : moderate interstate_invoice)
    by (repeat split; vm_compute; reflexivity).
  assert (Hnz : nearest_cent (taxable_value interstate_invoice) <> 0)
    by (vm_compute; discriminate).
  destruct (exact_percentage_names_the_ledgers interstate_invoice 18 Hm
              eq_refl eq_refl eq_refl eq_refl Hnz eq_refl eq_refl)
    as (v & rest & Hv & Hn & _).
  exists v. split; [exact Hv|].
  assert (E : (fun v => LEDGERNAME <$> lines v)
                <$> build_voucher interstate_invoice
              = Ok ["Acme Traders"; "Interstate Purchase 18%";
                    "Input IGST 18%"; "Round Off"])
    by (vm_compute; reflexivity).
  rewrite Hv in E. injection E as E. exact E.
Defined.

End Rate.

(** ** Negative amounts *)

(** The debit entries put a minus sign in front of the amount without
    looking at its sign: for an invoice whose taxable value is negative (a
    credit note, or an amount like -0.001 that rounds to -0.00) the purchase
    entry's AMOUNT text begins with two minus signs. *)
Theorem negative_taxable_doubles_the_minus (i : Invoice) (v : Voucher) :
  Dec.sign (taxable_value i) = true ->
  build_voucher i = Ok v ->
  exists l digits,
    lines v !! 1%nat = Some l
    /\ ISDEEMEDPOSITIVE l = "Yes"
    /\ amount_text (AMOUNT l) = "--" +:+ digits.
Proof.
  intros Hs Hv.
  apply build_voucher_ok in Hv
    as (ymd & taxable & igst & cgst & sgst & total & rate & _ & Ht & _ & _ & _
        & _ & _ & ->).
  apply DecFacts.r2_ok in Ht as (_ & Hsign & _).
  eexists _, _. split; [reflexivity|]. split; [reflexivity|].
  unfold debit_line. cbn [AMOUNT amount_text]. unfold Dec.to_string.
  rewrite Hsign, Hs. cbv zeta. cbn [String.append]. reflexivity.
Qed.

Lemma negative_taxable_doubles_the_minus_witness :
  exists l,
    (fun v => lines v !! 1%nat) <$> build_voucher credit_note_invoice
    = Ok (Some l)
    /\ amount_text (AMOUNT l) = "--5.00".
Proof.
  destruct (build_voucher credit_note_invoice) as [v|e] eqn:Hv;
    [|vm_compute in Hv; discriminate].
  destruct (negative_taxable_doubles_the_minus credit_note_invoice v eq_refl Hv)
    as (l & digits & Hl & _ & _).
  exists l. simpl. rewrite Hl. split; [reflexivity|].
  assert (E : (fun v => (fun l => amount_text (AMOUNT l)) <$> lines v !! 1%nat)
                <$> build_voucher credit_note_invoice
              = Ok (Some "--5.00")) by (vm_compute; reflexivity).
  rewrite Hv in E. simpl in E. rewrite Hl in E. simpl in E.
  injection E as E. exact E.
Defined.

(** ** Texts the masters document cannot hold *)

Lemma ledger_calls_names (i : Invoice) (cs : list Call) :
  ledger_calls i = Ok cs ->
  Forall (fun c => call_name c = supplier_name i \/ is_Some (call_name c)) cs.
Proof.
  unfold ledger_calls. intros H.
  apply bind_ok in H as (taxable & _ & H). apply bind_ok in H as (ig & _ & H).
  apply bind_ok in H as (cg & _ & H). apply bind_ok in H as (sg & _ & H).
  apply bind_ok in H as (a & Ha & H). apply bind_ok in H as (b & Hb & [= <-]).
  constructor; [left; reflexivity|]. apply Forall_app. split.
  - unfold interstate_calls in Ha. destruct (_ && _).
    + apply bind_ok in Ha as (rate & _ & [= <-]).
      repeat (constructor; [right; eexists; reflexivity|]). constructor.
    + injection Ha as <-. constructor.
  - unfold local_calls in Hb. destruct (_ && _).
    + apply bind_ok in Hb as (rate & _ & [= <-]).
      repeat (constructor; [right; eexists; reflexivity|]). constructor.
    + injection Hb as <-. constructor.
Qed.

Lemma all_calls_names (invoices : list Invoice) : forall cs,
  all_calls invoices = Ok cs ->
  Forall (fun i => is_Some (supplier_name i)) invoices ->
  Forall (fun c => is_Some (call_name c)) cs.
Proof.
  induction invoices as [|i rest IH]; intros cs H Hn; simpl in H.
  - injection H as <-. constructor.
  - apply bind_ok in H as (a & Ha & H). apply bind_ok in H as (b & Hb & [= <-]).
    inversion Hn as [|? ? Hi Hrest]; subst. apply Forall_app. split; [|auto].
    eapply Forall_impl; [eapply ledger_calls_names, Ha|].
    intros c [Hc|Hc]; [rewrite Hc; exact Hi|exact Hc].
Qed.

(** A company name or a supplier name with a character XML forbids (a
    control character other than tab, line feed and carriage return, U+FFFE
    or U+FFFF) stops the masters document: when planning succeeds and every
    invoice has a supplier name, [generate_masters_string] raises
    ExpatError, and [process_gst] with it. *)
Theorem masters_need_xml_text (invoices : list Invoice)
    (company_name : string) (st : Masters) :
  plan invoices = Ok st ->
  Forall (fun i => is_Some (supplier_name i)) invoices ->
  xml_text_ok company_name = false
  \/ Exists (fun i => exists s, supplier_name i = Some s
                               /\ xml_text_ok s = false) invoices ->
  generate_masters_string invoices company_name = Raise ExpatError
  /\ forall raw_json,
       process_gstr2b_logic raw_json = invoices ->
       process_gst raw_json company_name = Raise ExpatError.
Proof.
  intros Hst Hnames Hbad.
  assert (Hm : generate_masters_string invoices company_name = Raise ExpatError).
  { unfold generate_masters_string. rewrite Hst. simpl. unfold prettify. simpl.
    pose proof (plan_inv _ _ Hst) as [Hc _].
    unfold plan in Hst. rewrite plan_invoices_calls in Hst.
    apply bind_ok in Hst as (cs & Hcs & [= <-]).
    set (st := foldl run_call _ cs) in *.
    assert (Hsome : forallb (fun l => bool_decide (is_Some (NAME l)))
                      (req_data st) = true).
    { apply forallb_forall. intros l Hl. apply bool_decide_eq_true.
      apply list_elem_of_In in Hl. unfold st in Hl.
      rewrite foldl_run_call_first in Hl. apply elem_of_app in Hl as [Hl|Hl].
      - unfold create_ledger_elem in Hl.
        destruct (decide _) as [Hin|_];
          [apply elem_of_empty in Hin; destruct Hin|].
        simpl in Hl. apply list_elem_of_singleton in Hl as ->. eexists.
        reflexivity.
      - apply list_elem_of_fmap in Hl as (c & -> & Hc').
        apply first_by_name_sub in Hc'.
        pose proof (all_calls_names _ _ Hcs Hnames) as Hall.
        rewrite Forall_forall in Hall. apply Hall, Hc'. }
    rewrite Hsome.
    destruct (xml_text_ok company_name) eqn:Hco; [|reflexivity].
    destruct Hbad as [Hbad|Hbad]; [discriminate|]. simpl. clear Hsome.
    destruct (forallb (fun l => forallb xml_text_ok (ledger_texts l))
                (req_data st)) eqn:F; [exfalso|reflexivity].
    rewrite forallb_forall in F.
    apply Exists_exists in Hbad as (i & Hi & s & Hs & Hx).
    assert (Hin : supplier_name i ∈ NAME <$> req_data st).
    { apply (elem_of_list_to_set (C := gset (option string))).
      rewrite <- Hc. unfold st. rewrite foldl_run_call_created.
      apply elem_of_union_r, elem_of_list_to_set.
      eapply all_calls_supplier; eassumption. }
    apply list_elem_of_fmap in Hin as (l & Hl & Hlin).
    apply list_elem_of_In in Hlin. specialize (F l Hlin).
    rewrite forallb_forall in F. specialize (F s).
    rewrite Hx in F. enough (true = false) by discriminate. symmetry. apply F.
    unfold ledger_texts. rewrite <- Hl, Hs. left. reflexivity. }
  split; [exact Hm|]. intros raw_json <-. unfold process_gst. rewrite Hm.
  reflexivity.
Qed.

Lemma masters_need_xml_text_witness :
  is_ok (generate_vouchers_string
           (process_gstr2b_logic control_character_filing) "Acme") = true
  /\ process_gst control_character_filing "Acme" = Raise ExpatError.
Proof.
  split; [vm_compute; reflexivity|].
  destruct (plan (process_gstr2b_logic control_character_filing))
    as [st|e] eqn:H; [|vm_compute in H; discriminate].
  apply (masters_need_xml_text _ "Acme" st H); [| |reflexivity].
  - repeat constructor. eexists. reflexivity.
  - right. apply Exists_cons_hd. eexists. split; reflexivity.
Defined.
